(** * CustomCTkDialog: a shallow embedding of [custom_ctk_dialog.py]

    The module offers four modal dialogs (prompt, confirm, selection, alert)
    built on customtkinter, and a folder picker that runs a bundled
    executable.  The toolkit, the subprocess and the JSON decoder are outside
    the module: here they appear as the effects the module asks for (a trace)
    and as the answers it gets back (what the toolkit does while a window
    fades in, a script of user events for the wait, the result of the spawned
    process, the decoder's verdict).  In the dialogs, creating the window
    and laying out its widgets is taken to succeed: no event is served
    before the first [update()].  Layout, fonts, colours and icons hold
    nothing a result depends on and are left out. *)

From Stdlib Require Import ZArith String Ascii List Lia Bool.
From stdpp Require Import base decidable option list gmap sorting strings.
From stdpp Require Import pretty.

Local Open Scope string_scope.
Local Open Scope list_scope.
Local Open Scope Z_scope.

(** ** Module constants *)

Definition MIN_WINDOW_WIDTH : Z := 500.
Definition BUTTON_SPACING : Z := 10.
Definition MESSAGE_MAX_LENGTH : Z := 500.

(** [PACKAGE_DIR] is the directory the module is installed in, with its
    trailing separator. *)
Definition EXE_PATH (PACKAGE_DIR : string) : string :=
  PACKAGE_DIR +:+ "folder-picker-1.0.2.exe".

(** ** Python strings

    A [str] is a sequence of characters; one [ascii] stands for one
    character, so [String.length] is Python's [len]. *)

Definition py_len (s : string) : Z := Z.of_nat (String.length s).

(** [s[:stop]]: a negative [stop] counts from the end, and both ends are
    clamped to the string. *)
Definition py_slice_to (s : string) (stop : Z) : string :=
  let n := py_len s in
  let stop' := if stop <? 0 then Z.max (n + stop) 0 else Z.min stop n in
  substring 0 (Z.to_nat stop') s.

(** The characters [str.strip()] removes, for code points below 256: the
    ASCII white space (tab to carriage return, the four separators 0x1C to
    0x1F, the blank) and the two Latin-1 ones (0x85, 0xA0). *)
Definition py_isspace (c : ascii) : bool :=
  let n := nat_of_ascii c in
  ((9 <=? n) && (n <=? 13) || (28 <=? n) && (n <=? 32)
   || (n =? 133) || (n =? 160))%nat.

Fixpoint py_lstrip (s : string) : string :=
  match s with
  | String c s' => if py_isspace c then py_lstrip s' else s
  | EmptyString => EmptyString
  end.

Definition py_strip (s : string) : string :=
  String.rev (py_lstrip (String.rev (py_lstrip s))).

(** Truthiness of a [str]: only the empty one is false. *)
Definition str_truthy (s : string) : bool :=
  match s with EmptyString => false | String _ _ => true end.

(** ** [Dialog._truncate_message] *)

Definition _truncate_message (message : string) (max_chars : Z) : string :=
  if py_len message <=? max_chars then message
  else py_slice_to message (max_chars - 3) +:+ "...".

(** ** Python values, exceptions and effects *)

(** The exceptions this module raises or meets.  All of them derive from
    [Exception]. *)
Inductive exn : Type :=
| ValueError (msg : string)
| TypeError
| ZeroDivisionError
| IndexError
| TclError
| FileNotFoundError
| CalledProcessError (returncode : Z) (stderr : string)
| JSONDecodeError
| OSError (msg : string)
| OverflowError.

(** The objects that travel through a dialog's result slot and out of the
    public functions.  [VObject id] is a bare [object()], known only by its
    identity. *)
Inductive pyval : Type :=
| VNone
| VBool (b : bool)
| VStr (s : string)
| VObject (id : nat)
| VList (items : list string).

Definition py_truthy (v : pyval) : bool :=
  match v with
  | VNone => false
  | VBool b => b
  | VStr s => str_truthy s
  | VObject _ => true
  | VList items => match items with [] => false | _ :: _ => true end
  end.

Definition is_none (v : pyval) : bool :=
  match v with VNone => true | _ => false end.

(** [v is signal], for [signal] a bare object: identity of objects. *)
Definition is_object (v signal : pyval) : bool :=
  match v, signal with
  | VObject a, VObject b => Nat.eqb a b
  | _, _ => false
  end.

(** [v != ""]. *)
Definition ne_empty_str (v : pyval) : bool :=
  match v with VStr EmptyString => false | _ => true end.

(** [x or default] on an optional string. *)
Definition str_or (x : option string) (default : string) : string :=
  match x with
  | Some s => if str_truthy s then s else default
  | None => default
  end.

(** Truthiness of an optional string: [None] and [""] are false. *)
Definition opt_truthy (x : option string) : bool :=
  match x with Some s => str_truthy s | None => false end.

(** [a % n] on integers: the sign follows the divisor, as [Z.modulo] does,
    and a zero divisor raises. *)
Definition py_mod (a n : Z) : exn + Z :=
  if n =? 0 then inl ZeroDivisionError else inr (a mod n).

(** [l[i]]: a negative index counts from the end; out of range raises. *)
Definition py_getitem {A : Type} (l : list A) (i : Z) : exn + A :=
  let n := Z.of_nat (length l) in
  let j := if i <? 0 then i + n else i in
  if (j <? 0) || (n <=? j) then inl IndexError
  else match l !! Z.to_nat j with
       | Some x => inr x
       | None => inl IndexError
       end.

(** What the module asks of the outside world, in order. *)
Inductive effect : Type :=
| WindowCreated (title : string)
| MessageShown (text : string)
| EntryCreated (text : string)
| ItemsListed (items : list string)
| WindowShown
| WindowFinished
| WindowDestroyed
| CallbackFailed (e : exn)
| Printed (line : string).

Record world : Type := World {
  next_object : nat;
  trace : list effect
}.

Definition initial_world : world := World 0 [].

(** A call returns, raises, or never comes back (the wait loop has nothing
    left to wake it). *)
Inductive outcome (A : Type) : Type :=
| Return (a : A)
| Raise (e : exn)
| Blocked.
Arguments Return {A} a.
Arguments Raise {A} e.
Arguments Blocked {A}.

Definition py (A : Type) : Type := world -> outcome A * world.

#[global] Instance py_ret : MRet py := fun A a w => (Return a, w).

#[global] Instance py_bind : MBind py := fun A B k m w =>
  match m w with
  | (Return a, w') => k a w'
  | (Raise e, w') => (Raise e, w')
  | (Blocked, w') => (Blocked, w')
  end.

Definition raise {A : Type} (e : exn) : py A := fun w => (Raise e, w).

Definition blocked {A : Type} : py A := fun w => (Blocked, w).

Definition emit (e : effect) : py unit := fun w =>
  (Return tt, World (next_object w) (trace w ++ [e])).

(** [object()]: a new identity. *)
Definition fresh_object : py pyval := fun w =>
  (Return (VObject (next_object w)), World (S (next_object w)) (trace w)).

Definition lift {A : Type} (r : exn + A) : py A :=
  match r with inl e => raise e | inr a => mret a end.

(** [try: body except ...: handler]: [handler e] is [None] when no clause
    matches [e]. *)
Definition try_except {A : Type} (body : py A) (handler : exn -> option (py A))
  : py A := fun w =>
  match body w with
  | (Raise e, w') =>
      match handler e with Some h => h w' | None => (Raise e, w') end
  | r => r
  end.

(** ** User events

    One [app.update()] delivers the events that are pending, in order, to the
    callbacks bound to them; or it raises (the application is gone). *)
Inductive event : Type :=
| ClickCancel
| ClickConfirm
| ClickItem (index : nat)
| KeyReturn
| KeyEscape
| KeyUp
| KeyDown
| KeySpace
| WmDeleteWindow
| EntryEdited (text : string).

Inductive update : Type :=
| Dispatch (events : list event)
| UpdateRaises (e : exn).

Definition script : Type := list update.

(** ** The toolkit while a window fades in

    [_force_foreground] calls the toolkit outside any [try], but for three
    calls.  [plain_call n] tells whether the n-th of its calls that serve no
    event succeeds (0: [attributes("-alpha", 0.0)], 1: [deiconify()],
    2: [update_idletasks()], 3 to 12: [attributes("-alpha", alpha)] of the
    ten frames, 13: [attributes("-alpha", 1.0)], 14: [lift()], 15 and 16:
    [attributes("-topmost", ...)], 17: [focus_force()]); [frame n] is what
    its n-th [update()] delivers (0: the first, 1 to 10: the ten frames,
    11: the one between the two [-topmost] calls), [None] when that
    [update()] fails.  A call into the toolkit that fails raises
    [TclError]. *)
Record fade_in : Type := FadeIn {
  plain_call : nat -> bool;
  frame : nat -> option (list event)
}.

Definition tk_call (succeeds : bool) : py unit :=
  if succeeds then mret tt else raise TclError.

(** ** The modal wait *)

Section Wait.

Context {S : Type}.
(** [flag_container.get(key, None)] *)
Variable slot : S -> pyval.
(** The callback bound to an event: the dialog's variables after it, or
    the exception it raised (none of the callbacks below has changed
    anything when it raises). *)
Variable callback : event -> S -> exn + S.

Definition after_callback (ev : event) (st : S) : S :=
  match callback ev st with inr st' => st' | inl _ => st end.

Definition after_callbacks (evs : list event) (st : S) : S :=
  fold_left (fun st ev => after_callback ev st) evs st.

(** Tkinter runs a callback inside [CallWrapper]: an exception of the
    callback goes to [report_callback_exception] and the event loop goes
    on; it does not leave [update()]. *)
Fixpoint dispatch (evs : list event) (st : S) : py S :=
  match evs with
  | [] => mret st
  | ev :: evs' =>
      match callback ev st with
      | inr st' => dispatch evs' st'
      | inl e => emit (CallbackFailed e);; dispatch evs' st
      end
  end.

Fixpoint wait_loop (sc : script) (st : S) : py S :=
  if is_none (slot st) then
    match sc with
    | [] => blocked
    | Dispatch evs :: sc' => st' ← dispatch evs st; wait_loop sc' st'
    | UpdateRaises _ :: _ => mret st
    end
  else mret st.

(** [window.update()] with no [try] around it and nobody looking at the
    slot: the callbacks run, a failure of the toolkit leaves the dialog. *)
Definition update_window (delivered : option (list event)) (st : S) : py S :=
  match delivered with
  | Some evs => dispatch evs st
  | None => raise TclError
  end.

(** [for index in range(1, steps + 1)]: one [attributes] and one [update()]
    per frame. *)
Fixpoint fade_frames (fd : fade_in) (indices : list nat) (st : S) : py S :=
  match indices with
  | [] => mret st
  | index :: rest =>
      tk_call (plain_call fd (2 + index));;
      st' ← update_window (frame fd index) st;
      fade_frames fd rest st'
  end.

(** [Dialog._force_foreground].  What the callbacks have done to the
    dialog's variables inside the [try] stays done when the [try] is left
    by an exception. *)
Definition _force_foreground (fd : fade_in) (st : S) : py S :=
  tk_call (plain_call fd 0);;
  tk_call (plain_call fd 1);;
  emit WindowShown;;
  tk_call (plain_call fd 2);;
  st ← update_window (frame fd 0) st;
  let steps := 10%nat in
  st ← fade_frames fd (seq 1 steps) st;
  tk_call (plain_call fd 13);;
  tk_call (plain_call fd 14);;
  st ← (if plain_call fd 15 then
          match frame fd 11 with
          | Some evs =>
              st' ← dispatch evs st;
              try_except (tk_call (plain_call fd 16))
                (fun _ => Some (mret tt));;
              mret st'
          | None => mret st
          end
        else mret st);
  tk_call (plain_call fd 17);;
  mret st.

Definition _block_process_until_result (fd : fade_in) (sc : script) (st : S)
  : py S :=
  st ← _force_foreground fd st;
  wait_loop sc st.

(** After each of these batches of events the slot is still empty: the wait
    goes on through them. *)
Fixpoint keeps_waiting (batches : list (list event)) (st : S) : bool :=
  match batches with
  | [] => true
  | evs :: rest =>
      let st' := after_callbacks evs st in
      is_none (slot st') && keeps_waiting rest st'
  end.

(** The world [w'] is [w] with the reports of callbacks that failed. *)
Definition reported (w w' : world) : Prop :=
  exists reports,
    w' = World (next_object w) (trace w ++ map CallbackFailed reports)
    /\ Forall (fun e => exists ev st, callback ev st = inl e) reports.

End Wait.

(** [Dialog._safe_finish]: hides and destroys the window, and swallows
    whatever that raises. *)
Definition _safe_finish : py unit := emit WindowFinished.

(** ** [Dialog._base_input_dialog], [Dialog.prompt], [Dialog.confirm] *)

(** The variables the callbacks of an input dialog close over:
    [result_container["value"]] and the entry widget with its text
    ([None] when the dialog has no entry). *)
Record input_state : Type := InputState {
  result_value : pyval;
  input_entry : option string
}.

Definition _do_cancel (CANCEL_SIGNAL : pyval) (st : input_state)
  : input_state :=
  InputState CANCEL_SIGNAL (input_entry st).

Definition _do_confirm (is_input : bool) (st : input_state) : input_state :=
  match is_input, input_entry st with
  | true, Some text =>
      let value := py_strip text in
      InputState (VStr (if str_truthy value then value else ""))
        (input_entry st)
  | _, _ => InputState (VBool true) (input_entry st)
  end.

(** The bindings: both buttons, [<Return>], [<Escape>] and the window's
    close button; typing edits the entry when there is one.  No other event
    is bound. *)
Definition input_callback (CANCEL_SIGNAL : pyval) (is_input : bool)
    (ev : event) (st : input_state) : exn + input_state :=
  match ev with
  | ClickCancel | KeyEscape | WmDeleteWindow =>
      inr (_do_cancel CANCEL_SIGNAL st)
  | ClickConfirm | KeyReturn => inr (_do_confirm is_input st)
  | EntryEdited text =>
      inr (InputState (result_value st)
             (match input_entry st with Some _ => Some text | None => None end))
  | _ => inr st
  end.

(** What the dialog makes of the slot once the wait is over. *)
Definition input_outcome (CANCEL_SIGNAL : pyval) (is_input : bool)
    (final_value : pyval) : py pyval :=
  if is_object final_value CANCEL_SIGNAL then
    if is_input then raise (ValueError "Input required: Dialog was canceled.")
    else mret (VBool false)
  else if is_input then
    if negb (py_truthy final_value) && ne_empty_str final_value
    then raise (ValueError "Input required: blank input.")
    else mret final_value
  else mret (VBool (py_truthy final_value)).

Definition _base_input_dialog (message : option string) (is_input : bool)
    (default_text : string) (window_title : option string) (fd : fade_in)
    (sc : script) : py pyval :=
  if negb (opt_truthy message)
  then raise (ValueError "A message must be provided for input dialogs.")
  else
    CANCEL_SIGNAL ← fresh_object;
    emit (WindowCreated (str_or window_title "Application"));;
    emit (MessageShown
            (_truncate_message (default "" message) MESSAGE_MAX_LENGTH));;
    (if is_input then emit (EntryCreated default_text) else mret tt);;
    st ← _block_process_until_result result_value
           (input_callback CANCEL_SIGNAL is_input) fd sc
           (InputState VNone (if is_input then Some default_text else None));
    let final_value := result_value st in
    _safe_finish;;
    input_outcome CANCEL_SIGNAL is_input final_value.

Definition prompt (message : option string) (default_text : string)
    (fd : fade_in) (sc : script) : py pyval :=
  _base_input_dialog message true default_text (Some "Input Required") fd sc.

Definition confirm (message : option string) (fd : fade_in) (sc : script)
  : py pyval :=
  _base_input_dialog message false "" (Some "Confirm") fd sc.

(** ** [Dialog.selection] *)

Record selection_state : Type := SelectionState {
  selection_value : pyval;          (* result_container["value"] *)
  selected_indices : gset Z;
  active_focus_index : Z
}.

Section Selection.

(** The order in which iterating a [set] of ints yields its members.
    Python leaves it to the interpreter. *)
Variable set_iter : gset Z -> list Z.

Variable selections : list string.
Variables multiple optional : bool.

(** [[selections[index] for index in selected_indices]] *)
Fixpoint items_at (indices : list Z) : exn + list string :=
  match indices with
  | [] => inr []
  | index :: rest =>
      match py_getitem selections index with
      | inl e => inl e
      | inr item =>
          match items_at rest with
          | inl e => inl e
          | inr items => inr (item :: items)
          end
      end
  end.

Definition selected_items (selected : gset Z) : exn + list string :=
  items_at (set_iter selected).

Definition handle_toggle_selection (index_to_toggle : Z)
    (st : selection_state) : selection_state :=
  let selected := selected_indices st in
  SelectionState (selection_value st)
    (if multiple then
       if decide (index_to_toggle ∈ selected)
       then selected ∖ {[index_to_toggle]}
       else selected ∪ {[index_to_toggle]}
     else (∅ : gset Z) ∪ {[index_to_toggle]})
    index_to_toggle.

Definition handle_move_up (st : selection_state) : exn + selection_state :=
  match py_mod (active_focus_index st - 1) (Z.of_nat (length selections)) with
  | inl e => inl e
  | inr focus =>
      inr (SelectionState (selection_value st) (selected_indices st) focus)
  end.

Definition handle_move_down (st : selection_state) : exn + selection_state :=
  match py_mod (active_focus_index st + 1) (Z.of_nat (length selections)) with
  | inl e => inl e
  | inr focus =>
      inr (SelectionState (selection_value st) (selected_indices st) focus)
  end.

Definition perform_confirmation (st : selection_state)
  : exn + selection_state :=
  if negb optional && bool_decide (selected_indices st = ∅)
  then inl (ValueError "Selection required.")
  else
    match selected_items (selected_indices st) with
    | inl e => inl e
    | inr items =>
        inr (SelectionState (VList items) (selected_indices st)
               (active_focus_index st))
    end.

Definition perform_cancellation (CANCEL_SIGNAL : pyval)
    (st : selection_state) : selection_state :=
  SelectionState CANCEL_SIGNAL (selected_indices st) (active_focus_index st).

(** The bindings: a click on the label of item [index] (there is one label
    per candidate), the arrow keys, the space bar, [<Return>], [<Escape>]
    and the two buttons.  The selection dialog registers no handler for the
    window's close button: none of its variables changes then, and what
    the toolkit does to the window shows as a later call that fails. *)
Definition selection_callback (CANCEL_SIGNAL : pyval) (ev : event)
    (st : selection_state) : exn + selection_state :=
  match ev with
  | ClickItem index =>
      if (index <? length selections)%nat
      then inr (handle_toggle_selection (Z.of_nat index) st)
      else inr st
  | KeyUp => handle_move_up st
  | KeyDown => handle_move_down st
  | KeySpace => inr (handle_toggle_selection (active_focus_index st) st)
  | KeyReturn | ClickConfirm => perform_confirmation st
  | KeyEscape | ClickCancel => inr (perform_cancellation CANCEL_SIGNAL st)
  | WmDeleteWindow | EntryEdited _ => inr st
  end.

Definition selection_initial : selection_state := SelectionState VNone ∅ 0.

(** The state in which the wait loop leaves the dialog. *)
Definition selection_wait (CANCEL_SIGNAL : pyval) (fd : fade_in)
    (sc : script) : py selection_state :=
  _block_process_until_result selection_value
    (selection_callback CANCEL_SIGNAL) fd sc selection_initial.

Definition selection_outcome (CANCEL_SIGNAL : pyval) (st : selection_state)
  : py pyval :=
  if is_object (selection_value st) CANCEL_SIGNAL then mret VNone
  else items ← lift (selected_items (selected_indices st));
       mret (VList items).

End Selection.

(** [selections] is [None] or a list; [message] is [None] or a string
    ([len(None)] raises [TypeError]). *)
Definition selection (set_iter : gset Z -> list Z)
    (message : option string) (selections : option (list string))
    (window_title : string) (multiple optional : bool) (fd : fade_in)
    (sc : script) : py pyval :=
  match selections with
  | None => raise (ValueError "The 'selections' parameter cannot be None.")
  | Some candidates =>
      emit (WindowCreated window_title);;
      CANCEL_SIGNAL ← fresh_object;
      truncated_message ←
        match message with
        | Some text => mret (_truncate_message text MESSAGE_MAX_LENGTH)
        | None => raise TypeError
        end;
      emit (MessageShown truncated_message);;
      emit (ItemsListed candidates);;
      st ← selection_wait set_iter candidates multiple optional
             CANCEL_SIGNAL fd sc;
      _safe_finish;;
      selection_outcome set_iter candidates CANCEL_SIGNAL st
  end.

(** ** [Dialog._base_alert_dialog], [Dialog.alert] *)

Inductive AlertType : Type := INFO | SUCCESS | WARNING | ERROR.

(** [kind.name.title()] *)
Definition kind_title (kind : AlertType) : string :=
  match kind with
  | INFO => "Info"
  | SUCCESS => "Success"
  | WARNING => "Warning"
  | ERROR => "Error"
  end.

Definition _dismiss (value : pyval) : pyval := VBool true.

Definition alert_callback (ev : event) (value : pyval) : exn + pyval :=
  match ev with
  | ClickConfirm | WmDeleteWindow | KeyReturn | KeyEscape =>
      inr (_dismiss value)
  | _ => inr value
  end.

(** [winfo_exists] is what the toolkit answers, after the window has been
    finished, to the last question the alert asks, and [destroy] how the
    call of [destroy()] that may follow ends. *)
Definition _base_alert_dialog (title : option string) (message : option string)
    (kind : AlertType) (winfo_exists : exn + bool) (destroy : exn + unit)
    (fd : fade_in) (sc : script) : py pyval :=
  match message with
  | None => raise (ValueError "Alert message must be provided.")
  | Some text =>
      emit (WindowCreated (str_or title (kind_title kind)));;
      emit (MessageShown (_truncate_message text MESSAGE_MAX_LENGTH));;
      _ ← _block_process_until_result (fun v => v) alert_callback fd sc VNone;
      _safe_finish;;
      still_there ← lift winfo_exists;
      (if still_there : bool
       then lift destroy;; emit WindowDestroyed
       else mret tt);;
      mret VNone
  end.

Definition alert (kind : AlertType) (title : option string)
    (message : option string) (winfo_exists : exn + bool)
    (destroy : exn + unit) (fd : fade_in) (sc : script) : py pyval :=
  _base_alert_dialog title message kind winfo_exists destroy fd sc.

(** ** [folder_picker] *)

(** What [json.loads] builds. *)
#[local] Unset Elimination Schemes.
Inductive json : Type :=
| JNull
| JBool (b : bool)
| JInt (n : Z)
| JFloat (repr : string)
| JString (s : string)
| JArray (items : list json)
| JObject (members : list (string * json)).
#[local] Set Elimination Schemes.

(** [isinstance(parsed, list)] *)
Definition is_list (v : json) : bool :=
  match v with JArray _ => true | _ => false end.

(** How the spawned process ends: it could not be started (the exception
    [subprocess.run] raises then), or it ran to an exit code. *)
Inductive process_result : Type :=
| SpawnFailed (e : exn)
| Exited (returncode : Z) (stdout stderr : string).

Definition newline : string := String (ascii_of_nat 10) "".

(** [str(flag).lower()] *)
Definition bool_lower (flag : bool) : string :=
  if flag then "true" else "false".

Definition picker_command (PACKAGE_DIR : string) (initialdir : option string)
    (return_full_paths : bool) (title : option string) (multi_folder : bool)
  : list string :=
  [EXE_PATH PACKAGE_DIR]
  ++ (if opt_truthy initialdir
      then ["--default_path=" +:+ default "" initialdir] else [])
  ++ ["--return_full_paths=" +:+ bool_lower return_full_paths]
  ++ (if opt_truthy title then ["--title=" +:+ default "" title] else [])
  ++ ["--multi-folder=" +:+ bool_lower multi_folder].

Section FolderPicker.

Variable PACKAGE_DIR : string.
(** The operating system's answer to a command line. *)
Variable run_process : list string -> process_result.
(** [json.loads]: the decoded value, or the exception it raises. *)
Variable json_loads : string -> exn + json.
(** [str(error)] of a [CalledProcessError]. *)
Variable error_text : list string -> Z -> string.

(** [subprocess.run(command, capture_output=True, text=True, check=True)]:
    a non-zero exit code becomes [CalledProcessError]. *)
Definition subprocess_run (command : list string) : py (string * string) :=
  match run_process command with
  | SpawnFailed e => raise e
  | Exited returncode stdout stderr =>
      if returncode =? 0 then mret (stdout, stderr)
      else raise (CalledProcessError returncode stderr)
  end.

Definition folder_picker (initialdir : option string)
    (return_full_paths : bool) (title : option string) (multi_folder : bool)
  : py (list json) :=
  let command :=
    picker_command PACKAGE_DIR initialdir return_full_paths title
      multi_folder in
  try_except
    ('(stdout, stderr) ← subprocess_run command;
     (if str_truthy stderr
      then emit (Printed ("--- Picker STDERR ---" +:+ newline +:+ " "
                          +:+ py_strip stderr +:+ " " +:+ newline
                          +:+ "---------------------"))
      else mret tt);;
     let json_output := py_strip stdout in
     if negb (str_truthy json_output) then mret []
     else
       parsed ← lift (json_loads json_output);
       mret (match parsed with JArray items => items | _ => [] end))
    (fun error =>
       match error with
       | FileNotFoundError =>
           Some (emit (Printed ("Picker EXE not found at "
                                +:+ EXE_PATH PACKAGE_DIR +:+ "."));;
                 mret [])
       | CalledProcessError returncode stderr =>
           Some (emit (Printed ("Error running folder picker: "
                                +:+ (if str_truthy stderr
                                     then py_strip stderr
                                     else error_text command returncode)));;
                 mret [])
       | JSONDecodeError =>
           Some (emit (Printed "Picker output was not valid JSON.");;
                 mret [])
       | _ => None
       end).

End FolderPicker.

(** ** Vocabulary of the properties *)

(** The events an input dialog binds to [_do_cancel] and to [_do_confirm],
    and those that leave its result slot alone. *)
Definition input_cancels (ev : event) : bool :=
  match ev with
  | ClickCancel | KeyEscape | WmDeleteWindow => true
  | _ => false
  end.

Definition input_confirms (ev : event) : bool :=
  match ev with ClickConfirm | KeyReturn => true | _ => false end.

(** The events the selection dialog binds to [perform_cancellation] and to
    [perform_confirmation]. *)
Definition selection_cancels (ev : event) : bool :=
  match ev with ClickCancel | KeyEscape => true | _ => false end.

Definition selection_confirms (ev : event) : bool :=
  match ev with ClickConfirm | KeyReturn => true | _ => false end.

(** Events that neither cancel nor confirm (in any dialog). *)
Definition quiet (ev : event) : bool :=
  negb (input_cancels ev || input_confirms ev).

(** The text in the entry after the user's edits. *)
Definition typed_text (default_text : string) (evs : list event) : string :=
  fold_left
    (fun text ev => match ev with EntryEdited s => s | _ => text end)
    evs default_text.

(** A script in which the user does as they please for a while ([before],
    batches of events that leave the dialog waiting), then ends the dialog
    with event [last], which may come at the end of a batch [evs]; [rest] is
    never looked at. *)
Definition ending_script (before : list (list event)) (evs : list event)
    (last : event) (rest : script) : script :=
  map Dispatch before ++ Dispatch (evs ++ [last]) :: rest.

(** A fade-in during which nothing happens. *)
Definition calm : fade_in := FadeIn (fun _ => true) (fun _ => Some []).

Definition delivers (delivered : option (list event)) : bool :=
  match delivered with Some _ => true | None => false end.

(** The fade-in comes through: none of the calls it makes outside its [try]
    fails. *)
Definition frame_passes (fd : fade_in) (index : nat) : bool :=
  plain_call fd (2 + index) && delivers (frame fd index).

Definition fade_passes (fd : fade_in) : bool :=
  plain_call fd 0 && plain_call fd 1 && plain_call fd 2
  && delivers (frame fd 0) && forallb (frame_passes fd) (seq 1 10)
  && plain_call fd 13 && plain_call fd 14 && plain_call fd 17.

(** The events a fade-in that comes through has delivered: those of its
    eleven bare updates, then those of the guarded one if it was reached and
    did not fail. *)
Definition fade_events (fd : fade_in) : list event :=
  concat (map (fun index => default [] (frame fd index)) (seq 0 11))
  ++ (if plain_call fd 15 then default [] (frame fd 11) else []).

(** The updates of a whole call: nothing looks at the slot before the wait
    loop does, so what the fade-in delivered counts as one update, the
    first; those of the wait follow. *)
Definition run_updates (fd : fade_in) (sc : script) : script :=
  Dispatch (fade_events fd) :: sc.

(** The world once the window has been deiconified. *)
Definition shown (w : world) : world :=
  World (next_object w) (trace w ++ [WindowShown]).

(** The world [w'] is [w] with more effects after those of [w]. *)
Definition extends (w w' : world) : Prop :=
  exists effects, trace w' = trace w ++ effects.

(** A program that only adds to the trace. *)
Definition monotone {A : Type} (m : py A) : Prop :=
  forall w, extends w (snd (m w)).

(** The candidate at a valid index. *)
Definition item_of (candidates : list string) (index : Z) : string :=
  default "" (candidates !! Z.to_nat index).

Definition in_range (candidates : list string) (index : Z) : Prop :=
  0 <= index < Z.of_nat (length candidates).



(** An iteration order is lawful when it yields each member once. *)
Definition lawful_iteration (set_iter : gset Z -> list Z) : Prop :=
  forall selected, set_iter selected ≡ₚ elements selected.

(** One lawful order.  CPython keeps a set of up to four small ints in a
    table of eight slots, each int in the slot named by its three low bits
    when that slot is free, and iterates over the table slot by slot: for
    such a set with no two ints in one slot, this is the order it yields. *)
Definition slot_le (a b : Z) : Prop :=
  a mod 8 < b mod 8 \/ (a mod 8 = b mod 8 /\ a <= b).

#[global] Instance slot_le_dec : RelDecision slot_le.
Proof. intros a b. unfold slot_le. apply _. Defined.


(** Sample inputs. *)
Fixpoint repeat_char (c : ascii) (n : nat) : string :=
  match n with O => EmptyString | S n' => String c (repeat_char c n') end.


(** A decoder that knows three documents, and an error text. *)
Definition sample_loads (document : string) : exn + json :=
  if String.eqb document "[1, 2]" then inr (JArray [JInt 1; JInt 2])
  else if String.eqb document "[]" then inr (JArray [])
  else if String.eqb document "null" then inr JNull
  else inl JSONDecodeError.

Definition sample_error_text (command : list string) (returncode : Z)
  : string :=
  "Command returned non-zero exit status.".

(** ** [Dialog.selection]: what the labels show *)

(** [update_selection_visuals]: the colour given to the label of each
    candidate, the selected ones first, then the focused one. *)
Definition item_color (selection_color : string) (st : selection_state)
    (index : Z) : string :=
  if decide (index ∈ selected_indices st) then selection_color
  else if bool_decide (index = active_focus_index st) then "#4a4a4a"
  else "transparent".

Definition update_selection_visuals (selection_color : string) (count : nat)
    (st : selection_state) : list string :=
  map (fun index => item_color selection_color st (Z.of_nat index))
    (seq 0 count).

(** The dialog's variables together with the colours its labels were last
    given. *)
Record visual_state : Type := VisualState {
  logic : selection_state;
  label_colors : list string
}.

(** The callbacks that end with a call of [update_selection_visuals]: the
    toggles and the two moves of the focus.  Confirming and cancelling do
    not repaint. *)
Definition repaints (count : nat) (ev : event) : bool :=
  match ev with
  | ClickItem index => (index <? count)%nat
  | KeyUp | KeyDown | KeySpace => true
  | _ => false
  end.

Definition visual_callback (set_iter : gset Z -> list Z)
    (selections : list string) (multiple optional : bool)
    (selection_color : string) (CANCEL_SIGNAL : pyval) (ev : event)
    (vs : visual_state) : exn + visual_state :=
  match selection_callback set_iter selections multiple optional CANCEL_SIGNAL
          ev (logic vs) with
  | inl e => inl e
  | inr st =>
      inr (VisualState st
             (if repaints (length selections) ev
              then update_selection_visuals selection_color
                     (length selections) st
              else label_colors vs))
  end.

(** The labels as the dialog paints them before it starts to wait. *)
Definition visual_initial (selections : list string) (selection_color : string)
  : visual_state :=
  VisualState selection_initial
    (update_selection_visuals selection_color (length selections)
       selection_initial).

(** ** [Dialog._center_app] *)

(** The arithmetic of [int(screen / 2 - dialog / 2)] is that of doubles.  A
    double that is not infinite is [mantissa * 2 ^ exponent] with a mantissa
    of 53 bits at most (or the power of two that rounding up 53 ones gives);
    nothing computed here is small enough to be subnormal. *)
Record dyadic : Type := Dyadic { mantissa : Z; exponent : Z }.

Inductive float : Type := Finite (x : dyadic) | Infinity.

(** The number of bits of [|m|]. *)
Definition bits (m : Z) : Z := if m =? 0 then 0 else Z.log2 (Z.abs m) + 1.

(** [m / 2 ^ s] as the nearest integer, the even one of two nearest. *)
Definition round_half_even (m s : Z) : Z :=
  let q := m / 2 ^ s in
  let r := m mod 2 ^ s in
  if 2 * r <? 2 ^ s then q
  else if 2 ^ s <? 2 * r then q + 1
  else if Z.even q then q else q + 1.

(** [|mantissa * 2 ^ exponent|] is [2 ^ 1024] or more. *)
Definition too_large (x : dyadic) : bool :=
  negb (mantissa x =? 0) && (1024 <? bits (mantissa x) + exponent x).

(** Rounding to a double: to 53 bits, to the nearest, ties to even; past
    the largest double, infinity. *)
Definition round53 (x : dyadic) : float :=
  let excess := bits (mantissa x) - 53 in
  let y :=
    if 0 <? excess
    then Dyadic (round_half_even (mantissa x) excess) (exponent x + excess)
    else x in
  if too_large y then Infinity else Finite y.

(** [n / 2] on an [int]: the quotient, correctly rounded; a quotient too
    large for a float raises. *)
Definition py_half (n : Z) : exn + dyadic :=
  match round53 (Dyadic n (-1)) with
  | Finite x => inr x
  | Infinity => inl OverflowError
  end.

(** [x - y] on floats. *)
Definition float_sub (x y : dyadic) : float :=
  let e := Z.min (exponent x) (exponent y) in
  round53
    (Dyadic (mantissa x * 2 ^ (exponent x - e)
             - mantissa y * 2 ^ (exponent y - e)) e).

(** [int(x)] on a float: towards zero; infinity raises. *)
Definition py_int (x : float) : exn + Z :=
  match x with
  | Infinity => inl OverflowError
  | Finite x =>
      inr (if 0 <=? exponent x then mantissa x * 2 ^ exponent x
           else Z.quot (mantissa x) (2 ^ (- exponent x)))
  end.

(** [int(screen / 2 - dialog / 2)] *)
Definition center_offset (screen dialog : Z) : exn + Z :=
  match py_half screen with
  | inl e => inl e
  | inr x =>
      match py_half dialog with
      | inl e => inl e
      | inr y => py_int (float_sub x y)
      end
  end.

(** The geometry string handed to the window. *)
Definition _center_app (screen_width screen_height : Z)
    (dialog_width dialog_height : Z) : exn + string :=
  match center_offset screen_width dialog_width with
  | inl e => inl e
  | inr center_x =>
      match center_offset screen_height dialog_height with
      | inl e => inl e
      | inr center_y =>
          inr (pretty dialog_width +:+ "x" +:+ pretty dialog_height
               +:+ "+" +:+ pretty center_x +:+ "+" +:+ pretty center_y)
      end
  end.

(** ** [file_picker] *)

Section FilePicker.

(** [os.path.basename] and [str(error)]. *)
Variable basename : string -> string.
Variable exception_text : exn -> string.

(** [root] is how [Tk()] ends, [icon] how loading and setting the icon
    ends, [withdraw] how hiding the root window ends, [askopenfilenames]
    what the native dialog answers (nothing when the user cancels),
    [destroy] how destroying the root window ends. *)
Definition file_picker (return_full_paths : bool)
    (preferred_icon_path : option string) (root : exn + unit)
    (icon : exn + unit) (withdraw : exn + unit)
    (askopenfilenames : exn + list string) (destroy : exn + unit)
  : py (list string) :=
  lift root;;
  emit (WindowCreated "tk");;
  (if opt_truthy preferred_icon_path then
     try_except (lift icon)
       (fun error =>
          Some (emit (Printed ("Warning: Could not set icon from path '"
                               +:+ default "" preferred_icon_path
                               +:+ "'. Error: " +:+ exception_text error))))
   else mret tt);;
  lift withdraw;;
  file_paths_tuple ← lift askopenfilenames;
  try_except (lift destroy;; emit WindowDestroyed)
    (fun _ => Some (mret tt));;
  let file_paths := file_paths_tuple in
  match file_paths with
  | [] => mret []
  | _ :: _ =>
      mret (if return_full_paths then file_paths else map basename file_paths)
  end.

End FilePicker.

(** ** [example/app.py] *)

(** [str(value)], for what the example prints.  The text of a list and of a
    bare object is the interpreter's business. *)
Definition py_str (repr : pyval -> string) (value : pyval) : string :=
  match value with
  | VNone => "None"
  | VBool true => "True"
  | VBool false => "False"
  | VStr s => s
  | other => repr other
  end.

(** [except ValueError]: [json.JSONDecodeError] derives from [ValueError]. *)
Definition is_value_error (e : exn) : bool :=
  match e with ValueError _ | JSONDecodeError => true | _ => false end.

(** [str(error)]: of a [ValueError], its message. *)
Definition error_message (exception_text : exn -> string) (e : exn)
  : string :=
  match e with ValueError msg => msg | _ => exception_text e end.

Section Example.

Variable PACKAGE_DIR : string.
Variable basename : string -> string.
Variable exception_text : exn -> string.
Variable error_text : list string -> Z -> string.
Variable json_loads : string -> exn + json.
(** The text [print] gives a value, a list of paths, a decoded list. *)
Variable repr : pyval -> string.
Variable paths_repr : list string -> string.
Variable json_repr : list json -> string.

(** What happens around the calls: what the toolkit and the user do in each
    dialog, what the toolkit answers the alert at its end, how the calls of
    the file picker end, how the picker's process ends. *)
Record example_run : Type := ExampleRun {
  prompt_fade : fade_in;
  prompt_script : script;
  confirm_fade : fade_in;
  confirm_script : script;
  alert_fade : fade_in;
  alert_script : script;
  alert_exists : exn + bool;
  alert_destroy : exn + unit;
  files_root : exn + unit;
  files_withdraw : exn + unit;
  files_chosen : exn + list string;
  files_destroy : exn + unit;
  picker_process : list string -> process_result
}.

Definition main (run : example_run) : py unit :=
  try_except
    (name ← prompt (Some "Enter your name:") "Alice" (prompt_fade run)
              (prompt_script run);
     emit (Printed ("Prompt returned: " +:+ py_str repr name)))
    (fun error =>
       if is_value_error error
       then Some (emit (Printed ("Prompt canceled: "
                                 +:+ error_message exception_text error)))
       else None);;
  confirmed ← confirm (Some "Do you want to continue?") (confirm_fade run)
                (confirm_script run);
  emit (Printed ("Confirm returned: " +:+ py_str repr confirmed));;
  alert SUCCESS (Some "Test Alert") (Some "This is a success alert!")
    (alert_exists run) (alert_destroy run) (alert_fade run)
    (alert_script run);;
  directories ← file_picker basename exception_text true None
                  (files_root run) (inr tt) (files_withdraw run)
                  (files_chosen run) (files_destroy run);
  emit (Printed ("Selected files: " +:+ paths_repr directories));;
  directories ← folder_picker PACKAGE_DIR (picker_process run) json_loads
                  error_text (Some "D:/") true None true;
  emit (Printed ("Selected folders: " +:+ json_repr directories)).

End Example.

(** ** More vocabulary *)

(** The first and the last character of a string. *)
Definition first_char (s : string) : option ascii :=
  match s with String c _ => Some c | EmptyString => None end.

Fixpoint last_char (s : string) : option ascii :=
  match s with
  | EmptyString => None
  | String c EmptyString => Some c
  | String _ s' => last_char s'
  end.

Definition is_blank (c : option ascii) : bool :=
  match c with Some c => py_isspace c | None => false end.

Fixpoint all_blank (s : string) : bool :=
  match s with
  | EmptyString => true
  | String c s' => py_isspace c && all_blank s'
  end.

(** A string that [strip] would leave as it is. *)
Definition trimmed (s : string) : Prop :=
  is_blank (first_char s) = false /\ is_blank (last_char s) = false.

(** The slot of a prompt holds nothing, the sentinel, or a trimmed string,
    and the prompt keeps its entry. *)
Definition prompt_slot_ok (signal : pyval) (st : input_state) : Prop :=
  input_entry st <> None
  /\ (result_value st = VNone \/ result_value st = signal
      \/ exists s, result_value st = VStr s /\ trimmed s).

(** The events an alert binds to [_dismiss]. *)
Definition alert_dismisses (ev : event) : bool :=
  match ev with
  | ClickConfirm | WmDeleteWindow | KeyReturn | KeyEscape => true
  | _ => false
  end.

(** The world once an alert is on the screen, and how an alert that was
    acknowledged ends: finished, then destroyed once more if the toolkit
    says it is still there, or raising what the toolkit raises at either of
    the two last calls. *)
Definition alert_shown (kind : AlertType) (title : option string)
    (text : string) (w : world) : world :=
  World (next_object w)
    (trace w
     ++ [WindowCreated (str_or title (kind_title kind));
         MessageShown (_truncate_message text MESSAGE_MAX_LENGTH);
         WindowShown]).

Definition alert_acknowledged (kind : AlertType) (title : option string)
    (text : string) (winfo_exists : exn + bool) (destroy : exn + unit)
    (w : world) : outcome pyval * world :=
  let finished :=
    trace (alert_shown kind title text w) ++ [WindowFinished] in
  match winfo_exists, destroy with
  | inr true, inr _ =>
      (Return VNone, World (next_object w) (finished ++ [WindowDestroyed]))
  | inr true, inl e => (Raise e, World (next_object w) finished)
  | inr false, _ => (Return VNone, World (next_object w) finished)
  | inl e, _ => (Raise e, World (next_object w) finished)
  end.

(** An optional argument as the picker reads it: the empty string is no
    argument. *)
Definition given (x : option string) : option string :=
  if opt_truthy x then x else None.

(** The exceptions [folder_picker] has a clause for. *)
Definition picker_catches (e : exn) : bool :=
  match e with
  | FileNotFoundError | CalledProcessError _ _ | JSONDecodeError => true
  | _ => false
  end.

(** The ways a callback of the selection dialog can fail. *)
Definition selection_failure (e : exn) : Prop :=
  e = ValueError "Selection required." \/ e = ZeroDivisionError
  \/ e = IndexError.

(** * Properties *)

(** Running a monadic program one step: the binds and the primitive
    operations are unfolded, the rest is left folded. *)
Ltac py_unfold :=
  cbv [mbind mret py_bind py_ret raise blocked emit fresh_object lift
       try_except _safe_finish].
Ltac py_step := py_unfold; cbn [fst snd next_object trace].

Section StringFacts.

Lemma length_substring_prefix (n : nat) (s : string) :
  String.length (substring 0 n s) = Nat.min n (String.length s).
Proof.
  revert n; induction s as [|c s IH]; intros [|n]; simpl; auto.
Qed.

Lemma length_string_app (s t : string) :
  String.length (s +:+ t) = (String.length s + String.length t)%nat.
Proof. induction s as [|c s IH]; simpl; auto. Qed.

Lemma py_slice_to_nonneg (s : string) (k : nat) :
  (k <= String.length s)%nat ->
  py_slice_to s (Z.of_nat k) = substring 0 k s.
Proof.
  intros Hk. unfold py_slice_to, py_len.
  destruct (Z.ltb_spec (Z.of_nat k) 0) as [Hneg|_]; [lia|].
  rewrite Z.min_l by lia. now rewrite Nat2Z.id.
Qed.

End StringFacts.

(** The two branches of the truncation at the module's limit. *)
Lemma truncate_short (message : string) :
  (String.length message <= 500)%nat ->
  _truncate_message message MESSAGE_MAX_LENGTH = message.
Proof.
  intros Hlen. unfold _truncate_message, MESSAGE_MAX_LENGTH, py_len.
  destruct (Z.leb_spec (Z.of_nat (String.length message)) 500); [easy | lia].
Qed.

Lemma truncate_long (message : string) :
  (500 < String.length message)%nat ->
  _truncate_message message MESSAGE_MAX_LENGTH
  = substring 0 497 message +:+ "...".
Proof.
  intros Hlen. unfold _truncate_message, MESSAGE_MAX_LENGTH, py_len.
  destruct (Z.leb_spec (Z.of_nat (String.length message)) 500); [lia|].
  change (500 - 3) with (Z.of_nat 497).
  rewrite py_slice_to_nonneg by lia. reflexivity.
Qed.

(** C6.  A message of at most 500 characters is displayed as it is; a longer
    one is displayed as its first 497 characters followed by three dots.
    The truncation is a total function on strings: it has no failing case. *)
Theorem truncate_message_spec (message : string) :
  ((String.length message <= 500)%nat ->
   _truncate_message message MESSAGE_MAX_LENGTH = message)
  /\ ((500 < String.length message)%nat ->
      _truncate_message message MESSAGE_MAX_LENGTH
      = substring 0 497 message +:+ "...").
Proof. split; [apply truncate_short | apply truncate_long]. Qed.

Lemma truncate_message_spec_witness :
  _truncate_message "Enter your name:" MESSAGE_MAX_LENGTH = "Enter your name:"
  /\ _truncate_message (repeat_char "x" 501) MESSAGE_MAX_LENGTH
     = repeat_char "x" 497 +:+ "...".
Proof.
  split.
  - apply (proj1 (truncate_message_spec "Enter your name:")). simpl. lia.
  - change (repeat_char "x" 497)
      with (substring 0 497 (repeat_char "x" 501)).
    apply (proj2 (truncate_message_spec (repeat_char "x" 501))).
    vm_compute. lia.
Defined.

(** C10.  The truncation never yields more than 500 characters, and
    truncating a truncated message changes nothing. *)
Theorem truncate_message_idempotent (message : string) :
  (String.length (_truncate_message message MESSAGE_MAX_LENGTH) <= 500)%nat
  /\ _truncate_message (_truncate_message message MESSAGE_MAX_LENGTH)
       MESSAGE_MAX_LENGTH
     = _truncate_message message MESSAGE_MAX_LENGTH.
Proof.
  assert (Hbound :
    (String.length (_truncate_message message MESSAGE_MAX_LENGTH) <= 500)%nat).
  { destruct (Nat.le_gt_cases (String.length message) 500) as [Hle|Hgt].
    - now rewrite truncate_short.
    - rewrite truncate_long by exact Hgt.
      rewrite length_string_app, length_substring_prefix.
      change (String.length "...") with 3%nat. lia. }
  split; [exact Hbound | now apply truncate_short].
Qed.

(** ** The folder picker *)

Section FolderPickerFacts.

Variable PACKAGE_DIR : string.
Variable run_process : list string -> process_result.
Variable json_loads : string -> exn + json.
Variable error_text : list string -> Z -> string.
Variables (initialdir : option string) (return_full_paths : bool)
          (title : option string) (multi_folder : bool).

(** After a clean exit the picker's answer depends on the trimmed output
    alone; what the process wrote to its error stream is printed first. *)
Lemma picker_after_exit (stdout stderr : string) (w : world) :
  run_process
    (picker_command PACKAGE_DIR initialdir return_full_paths title
       multi_folder)
  = Exited 0 stdout stderr ->
  exists w',
    folder_picker PACKAGE_DIR run_process json_loads error_text
      initialdir return_full_paths title multi_folder w =
      (if negb (str_truthy (py_strip stdout)) then (Return [], w')
       else match json_loads (py_strip stdout) with
            | inr (JArray items) => (Return items, w')
            | inr _ => (Return [], w')
            | inl JSONDecodeError =>
                (Return [],
                 World (next_object w')
                   (trace w' ++ [Printed "Picker output was not valid JSON."]))
            | inl FileNotFoundError =>
                (Return [],
                 World (next_object w')
                   (trace w' ++ [Printed ("Picker EXE not found at "
                                          +:+ EXE_PATH PACKAGE_DIR
                                          +:+ ".")]))
            | inl (CalledProcessError returncode err) =>
                (Return [],
                 World (next_object w')
                   (trace w' ++ [Printed ("Error running folder picker: "
                      +:+ (if str_truthy err then py_strip err
                           else error_text
                                (picker_command PACKAGE_DIR initialdir
                                   return_full_paths title multi_folder)
                                returncode))]))
            | inl e => (Raise e, w')
            end).
Proof.
  intros Hrun. unfold folder_picker, try_except, subprocess_run.
  rewrite Hrun. cbn [Z.eqb]. py_step.
  destruct (str_truthy stderr); eexists;
    (destruct (str_truthy (py_strip stdout)); cbn [negb]; [|reflexivity]);
    (destruct (json_loads (py_strip stdout)) as [[]|[]]; reflexivity).
Qed.

End FolderPickerFacts.

(** C4.  The picker returns the empty list when the trimmed output is empty,
    the decoded list when the output decodes to an array, the empty list when
    it decodes to anything else; a missing executable, a non-zero exit code
    and undecodable output are each printed and answered by the empty list.
    In none of these cases does the call raise. *)
Theorem folder_picker_cases (PACKAGE_DIR : string)
    (run_process : list string -> process_result)
    (json_loads : string -> exn + json)
    (error_text : list string -> Z -> string)
    (initialdir : option string) (return_full_paths : bool)
    (title : option string) (multi_folder : bool) (w : world) :
  let command :=
    picker_command PACKAGE_DIR initialdir return_full_paths title
      multi_folder in
  let result :=
    folder_picker PACKAGE_DIR run_process json_loads error_text
      initialdir return_full_paths title multi_folder w in
  (forall stdout stderr,
      run_process command = Exited 0 stdout stderr ->
      (py_strip stdout = "" -> fst result = Return [])
      /\ (forall items,
             py_strip stdout <> "" ->
             json_loads (py_strip stdout) = inr (JArray items) ->
             fst result = Return items)
      /\ (forall value,
             py_strip stdout <> "" ->
             json_loads (py_strip stdout) = inr value ->
             is_list value = false ->
             fst result = Return [])
      /\ (py_strip stdout <> "" ->
          json_loads (py_strip stdout) = inl JSONDecodeError ->
          fst result = Return []
          /\ last (trace (snd result))
             = Some (Printed "Picker output was not valid JSON.")))
  /\ (run_process command = SpawnFailed FileNotFoundError ->
      result
      = (Return [],
         World (next_object w)
           (trace w ++ [Printed ("Picker EXE not found at "
                                 +:+ EXE_PATH PACKAGE_DIR +:+ ".")])))
  /\ (forall returncode stdout stderr,
         returncode <> 0 ->
         run_process command = Exited returncode stdout stderr ->
         result
         = (Return [],
            World (next_object w)
              (trace w ++ [Printed ("Error running folder picker: "
                 +:+ (if str_truthy stderr then py_strip stderr
                      else error_text command returncode))]))).
Proof.
  intros command result.
  assert (Hempty : forall s, s <> "" -> str_truthy s = true)
    by (intros [|c s] Hs; [congruence | reflexivity]).
  split; [|split].
  - intros stdout stderr Hrun.
    destruct (picker_after_exit PACKAGE_DIR run_process json_loads error_text
                initialdir return_full_paths title multi_folder
                stdout stderr w Hrun) as [w' Hw'].
    fold result in Hw'. rewrite Hw'. clear Hw'.
    split; [|split; [|split]].
    + intros ->. reflexivity.
    + intros items Hne ->. now rewrite (Hempty _ Hne).
    + intros value Hne -> Hlist. rewrite (Hempty _ Hne).
      destruct value; try reflexivity. discriminate Hlist.
    + intros Hne ->. rewrite (Hempty _ Hne). cbn.
      split; [reflexivity | apply last_snoc].
  - intros Hrun. unfold result, folder_picker, try_except, subprocess_run.
    fold command. rewrite Hrun. reflexivity.
  - intros returncode stdout stderr Hcode Hrun.
    unfold result, folder_picker, try_except, subprocess_run.
    fold command. rewrite Hrun.
    destruct (Z.eqb_spec returncode 0) as [?|_]; [contradiction|].
    reflexivity.
Qed.

Lemma folder_picker_cases_witness :
  fst (folder_picker "C:/pkg/" (fun _ => Exited 0 " [1, 2] " "") sample_loads
         sample_error_text (Some "D:/") true None true initial_world)
  = Return [JInt 1; JInt 2]
  /\ fst (folder_picker "C:/pkg/" (fun _ => Exited 0 "not json" "")
            sample_loads sample_error_text (Some "D:/") true None true
            initial_world)
     = Return []
  /\ folder_picker "C:/pkg/" (fun _ => Exited 2 "" " boom ") sample_loads
       sample_error_text (Some "D:/") true None true initial_world
     = (Return [], World 0 [Printed "Error running folder picker: boom"]).
Proof.
  split; [|split].
  - destruct (folder_picker_cases "C:/pkg/"
                (fun _ => Exited 0 " [1, 2] " "")
                sample_loads sample_error_text (Some "D:/") true None true
                initial_world) as (Hexit & _).
    destruct (Hexit " [1, 2] " "" eq_refl) as (_ & Harray & _).
    apply Harray; [discriminate | reflexivity].
  - destruct (folder_picker_cases "C:/pkg/"
                (fun _ => Exited 0 "not json" "")
                sample_loads sample_error_text (Some "D:/") true None true
                initial_world) as (Hexit & _).
    destruct (Hexit "not json" "" eq_refl) as (_ & _ & _ & Hbad).
    apply Hbad; [discriminate | reflexivity].
  - destruct (folder_picker_cases "C:/pkg/"
                (fun _ => Exited 2 "" " boom ")
                sample_loads sample_error_text (Some "D:/") true None true
                initial_world) as (_ & _ & Hnonzero).
    apply (Hnonzero 2 "" " boom "); [discriminate | reflexivity].
Defined.

(** ** The modal wait *)

Section WaitFacts.

Context {S : Type}.
Variable slot : S -> pyval.
Variable callback : event -> S -> exn + S.

Lemma after_callbacks_app (evs evs' : list event) (st : S) :
  after_callbacks callback (evs ++ evs') st
  = after_callbacks callback evs' (after_callbacks callback evs st).
Proof. apply fold_left_app. Qed.

Lemma after_callbacks_snoc (evs : list event) (ev : event) (st : S) :
  after_callbacks callback (evs ++ [ev]) st
  = after_callback callback ev (after_callbacks callback evs st).
Proof. now rewrite after_callbacks_app. Qed.

(** A batch of events always comes to its end: a callback that raises is
    reported and the next event is served. *)
Lemma dispatch_returns (evs : list event) (st : S) (w : world) :
  exists w',
    dispatch callback evs st w = (Return (after_callbacks callback evs st), w').
Proof.
  revert st w. induction evs as [|ev evs IH]; intros st w; cbn.
  - now exists w.
  - unfold after_callback. destruct (callback ev st) as [e|st'].
    + py_step. apply IH.
    + apply IH.
Qed.

Lemma wait_loop_filled (sc : script) (st : S) (w : world) :
  is_none (slot st) = false -> wait_loop slot callback sc st w = (Return st, w).
Proof. intros Hslot. destruct sc as [|[]]; cbn; now rewrite Hslot. Qed.

Lemma wait_loop_dispatch (evs : list event) (sc : script) (st : S)
    (w : world) :
  is_none (slot st) = true ->
  exists w',
    wait_loop slot callback (Dispatch evs :: sc) st w
    = wait_loop slot callback sc (after_callbacks callback evs st) w'.
Proof.
  intros Hslot. cbn [wait_loop]. rewrite Hslot.
  destruct (dispatch_returns evs st w) as [w' Hw'].
  exists w'. py_unfold. now rewrite Hw'.
Qed.

(** The loop itself never raises: it returns the dialog's variables or
    waits for ever. *)
Lemma wait_loop_returns_or_blocks (sc : script) (st : S) (w : world) :
  exists w',
    (exists st', wait_loop slot callback sc st w = (Return st', w'))
    \/ wait_loop slot callback sc st w = (Blocked, w').
Proof.
  revert st w. induction sc as [|[evs|e] sc IH]; intros st w.
  - cbn. destruct (is_none (slot st)); eexists; [right|left; eexists];
      reflexivity.
  - destruct (is_none (slot st)) eqn:Hslot.
    + destruct (wait_loop_dispatch evs sc st w Hslot) as [w1 ->]. apply IH.
    + rewrite wait_loop_filled by exact Hslot. eexists; left; eexists.
      reflexivity.
  - cbn. destruct (is_none (slot st)); eexists; left; eexists; reflexivity.
Qed.

(** Waiting only adds to the trace. *)
Lemma dispatch_extends (evs : list event) (st : S) (w : world) :
  extends w (snd (dispatch callback evs st w)).
Proof.
  revert st w. induction evs as [|ev evs IH]; intros st w; cbn.
  - exists []. now rewrite app_nil_r.
  - destruct (callback ev st) as [e|st']; [|apply IH].
    py_step.
    destruct (IH st (World (next_object w) (trace w ++ [CallbackFailed e])))
      as [effects Heffects].
    exists (CallbackFailed e :: effects).
    rewrite Heffects. cbn. now rewrite <- app_assoc.
Qed.

Lemma wait_loop_extends (sc : script) (st : S) (w : world) :
  extends w (snd (wait_loop slot callback sc st w)).
Proof.
  revert st w. induction sc as [|[evs|e] sc IH]; intros st w; cbn;
    destruct (is_none (slot st)); try (exists []; now rewrite app_nil_r).
  py_unfold.
  destruct (dispatch_extends evs st w) as [effects Heffects].
  destruct (dispatch_returns evs st w) as [w1 Hw1].
  rewrite Hw1 in *. cbn in Heffects.
  destruct (IH (after_callbacks callback evs st) w1) as [more Hmore].
  exists (effects ++ more). rewrite Hmore, Heffects. now rewrite <- app_assoc.
Qed.

(** A batch in two parts is served part after part. *)
Lemma dispatch_app (evs evs' : list event) (st : S) (w : world) :
  dispatch callback (evs ++ evs') st w
  = (st' ← dispatch callback evs st; dispatch callback evs' st') w.
Proof.
  revert st w. induction evs as [|ev evs IH]; intros st w; cbn.
  - reflexivity.
  - destruct (callback ev st) as [e|st'].
    + py_step. rewrite IH. reflexivity.
    + apply IH.
Qed.

Lemma reported_refl (w : world) : reported callback w w.
Proof.
  exists []. cbn. rewrite app_nil_r. split; [now destruct w | constructor].
Qed.

Lemma reported_trans (w1 w2 w3 : world) :
  reported callback w1 w2 -> reported callback w2 w3 ->
  reported callback w1 w3.
Proof.
  intros (r1 & -> & H1) (r2 & -> & H2). exists (r1 ++ r2). cbn.
  rewrite map_app, app_assoc. split; [reflexivity | now apply Forall_app].
Qed.

Lemma reported_extends (w w' : world) :
  reported callback w w' -> extends w w'.
Proof. intros (reports & -> & _). eexists. reflexivity. Qed.

(** The only mark a batch leaves on the world is the report of each
    callback that failed. *)
Lemma dispatch_run (evs : list event) (st : S) (w : world) :
  exists w',
    reported callback w w'
    /\ dispatch callback evs st w
       = (Return (after_callbacks callback evs st), w').
Proof.
  revert st w. induction evs as [|ev evs IH]; intros st w; cbn [dispatch].
  - exists w. split; [apply reported_refl | reflexivity].
  - unfold after_callbacks. cbn [fold_left]. unfold after_callback at 2.
    destruct (callback ev st) as [e|st'] eqn:Hcall; [|apply IH].
    py_step.
    destruct (IH st (World (next_object w) (trace w ++ [CallbackFailed e])))
      as (w' & Hreported & ->).
    exists w'. split; [|reflexivity].
    apply (reported_trans _ (World (next_object w)
                               (trace w ++ [CallbackFailed e]))); [|assumption].
    exists [e]. split; [reflexivity|]. constructor; eauto.
Qed.

(** ** The fade-in *)

Lemma fade_frames_passes (fd : fade_in) (indices : list nat) (st : S)
    (w : world) :
  forallb (frame_passes fd) indices = true ->
  fade_frames callback fd indices st w
  = dispatch callback
      (concat (map (fun index => default [] (frame fd index)) indices)) st w.
Proof.
  revert st w. induction indices as [|index rest IH]; intros st w Hpass;
    [reflexivity|].
  cbn [forallb] in Hpass. apply andb_prop in Hpass as [Hframe Hrest].
  unfold frame_passes in Hframe. apply andb_prop in Hframe as [Hcall Hupdate].
  cbn [fade_frames map concat]. rewrite Hcall.
  destruct (frame fd index) as [evs|]; [|discriminate].
  cbn [tk_call update_window from_option id]. rewrite dispatch_app. py_unfold.
  destruct (dispatch_returns evs st w) as [w1 ->]. now apply IH.
Qed.

Lemma fade_frames_fails (fd : fade_in) (indices : list nat) (st : S)
    (w : world) :
  forallb (frame_passes fd) indices = false ->
  exists w',
    reported callback w w'
    /\ fade_frames callback fd indices st w = (Raise TclError, w').
Proof.
  revert st w. induction indices as [|index rest IH]; intros st w Hfail;
    [discriminate|].
  cbn [forallb] in Hfail. unfold frame_passes at 1 in Hfail.
  cbn [fade_frames].
  destruct (plain_call fd (2 + index));
    [|exists w; split; [apply reported_refl | reflexivity]].
  destruct (frame fd index) as [evs|];
    [|exists w; split; [apply reported_refl | reflexivity]].
  cbn [andb delivers] in Hfail. cbn [tk_call update_window]. py_unfold.
  destruct (dispatch_run evs st w) as (w1 & Hw1 & ->).
  destruct (IH (after_callbacks callback evs st) w1 Hfail)
    as (w2 & Hw2 & ->).
  exists w2. split; [|reflexivity]. now apply (reported_trans _ w1).
Qed.

(** A fade-in that comes through has served its events to the callbacks,
    one after the other, and nothing else has happened. *)
Lemma force_foreground_passes (fd : fade_in) (st : S) (w : world) :
  fade_passes fd = true ->
  _force_foreground callback fd st w
  = dispatch callback (fade_events fd) st (shown w).
Proof.
  unfold fade_passes. intros Hpass.
  repeat (apply andb_prop in Hpass as [Hpass ?]).
  unfold _force_foreground, fade_events.
  repeat match goal with
         | H : plain_call fd _ = true |- _ => rewrite H; clear H
         end.
  change (seq 0 11) with (0%nat :: seq 1 10). cbn [map concat].
  destruct (frame fd 0) as [evs0|]; [|discriminate].
  cbn [tk_call update_window from_option id]. py_step. fold (shown w).
  rewrite <- app_assoc, dispatch_app. py_unfold.
  destruct (dispatch_returns evs0 st (shown w)) as [w1 ->].
  rewrite fade_frames_passes by assumption.
  rewrite dispatch_app. py_unfold.
  destruct (dispatch_returns
              (concat (map (fun index => default [] (frame fd index))
                         (seq 1 10)))
              (after_callbacks callback evs0 st) w1) as [w2 ->].
  destruct (plain_call fd 15); [destruct (frame fd 11) as [evs|]|];
    cbn [from_option id dispatch]; py_unfold; try reflexivity.
  destruct (dispatch_returns evs
              (after_callbacks callback
                 (concat (map (fun index => default [] (frame fd index))
                            (seq 1 10)))
                 (after_callbacks callback evs0 st)) w2) as [w3 ->].
  destruct (plain_call fd 16); reflexivity.
Qed.

(** A fade-in that does not come through raises [TclError]: before the
    window is on the screen, or later, with the reports of the callbacks
    that failed meanwhile. *)
Lemma force_foreground_fails (fd : fade_in) (st : S) (w : world) :
  fade_passes fd = false ->
  exists w',
    (w' = w \/ reported callback (shown w) w')
    /\ _force_foreground callback fd st w = (Raise TclError, w').
Proof.
  unfold fade_passes, _force_foreground. intros Hfail.
  destruct (plain_call fd 0);
    [|exists w; split; [now left | reflexivity]].
  destruct (plain_call fd 1);
    [|exists w; split; [now left | reflexivity]].
  cbn [tk_call andb] in *. py_step. fold (shown w).
  destruct (plain_call fd 2);
    [|exists (shown w); split; [right; apply reported_refl | reflexivity]].
  destruct (frame fd 0) as [evs0|];
    [|exists (shown w); split; [right; apply reported_refl | reflexivity]].
  cbn [tk_call update_window delivers andb] in *. py_unfold.
  destruct (dispatch_run evs0 st (shown w)) as (w1 & Hw1 & ->).
  destruct (forallb (frame_passes fd) (seq 1 10)) eqn:Hframes.
  - rewrite fade_frames_passes by exact Hframes.
    destruct (dispatch_run
                (concat (map (fun index => default [] (frame fd index))
                           (seq 1 10)))
                (after_callbacks callback evs0 st) w1) as (w2 & Hw2 & ->).
    pose proof (reported_trans _ _ _ Hw1 Hw2) as H2.
    destruct (plain_call fd 13);
      [|exists w2; split; [now right | reflexivity]].
    destruct (plain_call fd 14);
      [|exists w2; split; [now right | reflexivity]].
    cbn [andb] in Hfail. rewrite Hfail. cbn [tk_call]. py_unfold.
    destruct (plain_call fd 15); [destruct (frame fd 11) as [evs|]|];
      try (exists w2; split; [now right | reflexivity]).
    destruct (dispatch_run evs
                (after_callbacks callback
                   (concat (map (fun index => default [] (frame fd index))
                              (seq 1 10)))
                   (after_callbacks callback evs0 st)) w2)
      as (w3 & Hw3 & ->).
    exists w3. split; [right; now apply (reported_trans _ w2)|].
    destruct (plain_call fd 16); reflexivity.
  - destruct (fade_frames_fails fd (seq 1 10)
                (after_callbacks callback evs0 st) w1 Hframes)
      as (w2 & Hw2 & ->).
    exists w2. split; [right; now apply (reported_trans _ w1) | reflexivity].
Qed.

(** The wait of a dialog whose fade-in comes through is the loop run on the
    updates of the whole call; one whose fade-in does not raises. *)
Lemma block_process_passes (fd : fade_in) (sc : script) (st : S) (w : world) :
  fade_passes fd = true -> is_none (slot st) = true ->
  _block_process_until_result slot callback fd sc st w
  = wait_loop slot callback (run_updates fd sc) st (shown w).
Proof.
  intros Hpass Hslot. unfold _block_process_until_result, run_updates.
  cbn [wait_loop]. rewrite Hslot. py_unfold.
  now rewrite force_foreground_passes.
Qed.

Lemma block_process_fails (fd : fade_in) (sc : script) (st : S) (w : world) :
  fade_passes fd = false ->
  exists w',
    (w' = w \/ reported callback (shown w) w')
    /\ _block_process_until_result slot callback fd sc st w
       = (Raise TclError, w').
Proof.
  intros Hfail. unfold _block_process_until_result. py_unfold.
  destruct (force_foreground_fails fd st w Hfail) as (w' & Hw' & ->).
  now exists w'.
Qed.

Lemma block_process_extends (fd : fade_in) (sc : script) (st : S)
    (w : world) :
  is_none (slot st) = true ->
  extends w (snd (_block_process_until_result slot callback fd sc st w)).
Proof.
  intros Hslot. destruct (fade_passes fd) eqn:Hfade.
  - rewrite block_process_passes by assumption.
    destruct (wait_loop_extends (run_updates fd sc) st (shown w))
      as [effects Heffects].
    exists (WindowShown :: effects). rewrite Heffects. cbn.
    now rewrite <- app_assoc.
  - destruct (block_process_fails fd sc st w Hfade) as (w' & Hw' & ->).
    destruct Hw' as [-> | Hw']; [exists []; cbn; now rewrite app_nil_r|].
    apply reported_extends in Hw' as [effects Heffects].
    exists (WindowShown :: effects). cbn [snd]. rewrite Heffects. cbn.
    now rewrite <- app_assoc.
Qed.

(** Batches that leave the slot empty are served one after the other. *)
Lemma wait_loop_waits (pre : list (list event)) (sc : script) (st : S)
    (w : world) :
  keeps_waiting slot callback pre st = true -> is_none (slot st) = true ->
  is_none (slot (after_callbacks callback (concat pre) st)) = true
  /\ exists w',
       wait_loop slot callback (map Dispatch pre ++ sc) st w
       = wait_loop slot callback sc
           (after_callbacks callback (concat pre) st) w'.
Proof.
  revert st w. induction pre as [|evs pre IH]; intros st w Hq Hslot.
  - cbn. split; [exact Hslot | now exists w].
  - cbn [keeps_waiting] in Hq. apply andb_prop in Hq as [Hevs Hpre].
    cbn [concat map app]. rewrite after_callbacks_app.
    destruct (wait_loop_dispatch evs (map Dispatch pre ++ sc) st w Hslot)
      as [w1 ->].
    apply IH; assumption.
Qed.

(** Batches that leave the slot empty and then one that fills it: the loop
    ends right after that batch, whatever follows. *)
Lemma wait_loop_closes (pre : list (list event)) (evs : list event)
    (post : script) (st : S) (w : world) :
  keeps_waiting slot callback pre st = true -> is_none (slot st) = true ->
  is_none (slot (after_callbacks callback (concat pre ++ evs) st)) = false ->
  exists w',
    wait_loop slot callback (map Dispatch pre ++ Dispatch evs :: post) st w
    = (Return (after_callbacks callback (concat pre ++ evs) st), w').
Proof.
  intros Hq Hslot Hend.
  destruct (wait_loop_waits pre (Dispatch evs :: post) st w Hq Hslot)
    as [Hslot' [w1 ->]].
  destruct (wait_loop_dispatch evs post _ w1 Hslot') as [w2 ->].
  rewrite <- after_callbacks_app. exists w2.
  now apply wait_loop_filled.
Qed.

(** Updates that deliver nothing leave the dialog waiting. *)
Lemma empty_batches_wait (pre : list (list event)) (st : S) :
  concat pre = [] -> is_none (slot st) = true ->
  keeps_waiting slot callback pre st = true.
Proof.
  induction pre as [|evs pre IH]; intros Hpre Hslot; [reflexivity|].
  cbn [concat] in Hpre. apply app_eq_nil in Hpre as [-> Hpre].
  cbn. rewrite Hslot. now apply IH.
Qed.

(** Events that leave the slot empty leave the dialog waiting. *)
Variable idle : event -> bool.
Hypothesis idle_keeps_waiting : forall ev st,
  idle ev = true -> is_none (slot st) = true ->
  is_none (slot (after_callback callback ev st)) = true.

Lemma after_idle (evs : list event) (st : S) :
  forallb idle evs = true -> is_none (slot st) = true ->
  is_none (slot (after_callbacks callback evs st)) = true.
Proof.
  revert st. induction evs as [|ev evs IH]; intros st Hq Hslot; cbn in *.
  - exact Hslot.
  - apply andb_prop in Hq as [Hev Hevs]. apply IH; auto.
Qed.

Lemma wait_loop_idle (pre : list (list event)) (sc : script) (st : S)
    (w : world) :
  forallb (forallb idle) pre = true -> is_none (slot st) = true ->
  is_none (slot (after_callbacks callback (concat pre) st)) = true
  /\ exists w',
       wait_loop slot callback (map Dispatch pre ++ sc) st w
       = wait_loop slot callback sc
           (after_callbacks callback (concat pre) st) w'.
Proof.
  revert st w. induction pre as [|evs pre IH]; intros st w Hq Hslot.
  - cbn. split; [exact Hslot | now exists w].
  - cbn in Hq. apply andb_prop in Hq as [Hevs Hpre].
    cbn [concat map app]. rewrite after_callbacks_app.
    pose proof (after_idle evs st Hevs Hslot) as Hslot'.
    destruct (wait_loop_dispatch evs (map Dispatch pre ++ sc) st w Hslot)
      as [w1 ->].
    apply IH; assumption.
Qed.

(** A script made of idle batches and then one batch that fills the slot:
    the loop ends right after that batch, whatever follows. *)
Lemma wait_loop_ends (pre : list (list event)) (evs : list event)
    (post : script) (st : S) (w : world) :
  forallb (forallb idle) pre = true -> is_none (slot st) = true ->
  is_none (slot (after_callbacks callback (concat pre ++ evs) st)) = false ->
  exists w',
    wait_loop slot callback (map Dispatch pre ++ Dispatch evs :: post) st w
    = (Return (after_callbacks callback (concat pre ++ evs) st), w').
Proof.
  intros Hq Hslot Hend.
  destruct (wait_loop_idle pre (Dispatch evs :: post) st w Hq Hslot)
    as [Hslot' [w1 ->]].
  destruct (wait_loop_dispatch evs post _ w1 Hslot') as [w2 ->].
  rewrite <- after_callbacks_app. exists w2.
  now apply wait_loop_filled.
Qed.

End WaitFacts.

(** ** The input dialogs *)

Section InputDialogFacts.

Variable signal : pyval.
Variable is_input : bool.

Lemma quiet_keeps_input_waiting (ev : event) (st : input_state) :
  quiet ev = true -> is_none (result_value st) = true ->
  is_none (result_value (after_callback (input_callback signal is_input) ev st))
  = true.
Proof. destruct ev; cbn; intros; congruence. Qed.

Lemma input_entry_after (evs : list event) (value : pyval) (text : string) :
  input_entry (after_callbacks (input_callback signal true) evs
                 (InputState value (Some text)))
  = Some (typed_text text evs).
Proof.
  revert value text. induction evs as [|ev evs IH]; intros value text.
  - reflexivity.
  - destruct ev; cbn; apply IH.
Qed.

Lemma no_entry_after (evs : list event) (value : pyval) :
  input_entry (after_callbacks (input_callback signal false) evs
                 (InputState value None))
  = None.
Proof.
  revert value. induction evs as [|ev evs IH]; intros value.
  - reflexivity.
  - destruct ev; cbn; apply IH.
Qed.

Lemma cancel_writes_sentinel (ev : event) (st : input_state) :
  input_cancels ev = true ->
  result_value (after_callback (input_callback signal is_input) ev st) = signal.
Proof. destruct ev; try discriminate; reflexivity. Qed.


(** Cancelling or confirming fills the slot. *)
Lemma terminal_fills_input_slot (id : nat) (ev : event) (st : input_state) :
  input_cancels ev || input_confirms ev = true ->
  is_none (result_value
             (after_callback (input_callback (VObject id) is_input) ev st))
  = false.
Proof.
  destruct st as [value [text|]], is_input, ev; cbn; intros; congruence.
Qed.

End InputDialogFacts.

(** The dialog up to its wait loop: a message that is neither [None] nor
    empty gets a sentinel, a window, a label and, for a prompt, an entry;
    then the window fades in. *)
Lemma base_input_dialog_opens (text : string) (is_input : bool)
    (default_text : string) (window_title : option string) (fd : fade_in)
    (sc : script) (w : world) :
  str_truthy text = true ->
  fade_passes fd = true ->
  exists w1,
    _base_input_dialog (Some text) is_input default_text window_title fd sc w
    = (st ← wait_loop result_value
              (input_callback (VObject (next_object w)) is_input)
              (run_updates fd sc)
              (InputState VNone (if is_input then Some default_text else None));
       _safe_finish;;
       input_outcome (VObject (next_object w)) is_input (result_value st)) w1.
Proof.
  intros Htext Hfade. unfold _base_input_dialog.
  cbn [opt_truthy]. rewrite Htext. cbn [negb]. py_step.
  destruct is_input; py_step;
    rewrite block_process_passes by easy; eexists; reflexivity.
Qed.

Lemma base_input_dialog_stops (text : string) (is_input : bool)
    (default_text : string) (window_title : option string) (fd : fade_in)
    (sc : script) (w : world) :
  str_truthy text = true ->
  fade_passes fd = false ->
  fst (_base_input_dialog (Some text) is_input default_text window_title
         fd sc w)
  = Raise TclError.
Proof.
  intros Htext Hfade. unfold _base_input_dialog.
  cbn [opt_truthy]. rewrite Htext. cbn [negb]. py_step.
  destruct is_input; py_step;
    match goal with
    | |- context [_block_process_until_result ?slot ?cb fd sc ?st ?w1] =>
        destruct (block_process_fails slot cb fd sc st w1 Hfade)
          as (w2 & _ & ->)
    end; reflexivity.
Qed.

(** An input dialog whose user ends it with [last]: the slot holds what the
    callback of [last] wrote, and the dialog's answer is read from it. *)
Lemma base_input_dialog_ends (text : string) (is_input : bool)
    (default_text : string) (window_title : option string) (fd : fade_in)
    (sc : script) (before : list (list event)) (evs : list event)
    (last : event) (rest : script) (w : world) :
  str_truthy text = true ->
  fade_passes fd = true ->
  run_updates fd sc = ending_script before evs last rest ->
  forallb (forallb quiet) before = true ->
  input_cancels last || input_confirms last = true ->
  let signal := VObject (next_object w) in
  let st :=
    after_callbacks (input_callback signal is_input) (concat before ++ evs)
      (InputState VNone (if is_input then Some default_text else None)) in
  exists w',
    _base_input_dialog (Some text) is_input default_text window_title fd sc w
    = input_outcome signal is_input
        (result_value (after_callback (input_callback signal is_input) last st))
        w'.
Proof.
  intros Htext Hfade Hrun Hquiet Hlast signal st.
  destruct (base_input_dialog_opens text is_input default_text window_title
              fd sc w Htext Hfade) as [w1 ->].
  rewrite Hrun. unfold ending_script.
  destruct (wait_loop_ends result_value (input_callback signal is_input) quiet
              (quiet_keeps_input_waiting signal is_input)
              before (evs ++ [last]) rest
              (InputState VNone (if is_input then Some default_text else None))
              w1 Hquiet eq_refl) as [w2 Hloop].
  - rewrite app_assoc, after_callbacks_snoc.
    now apply terminal_fills_input_slot.
  - rewrite app_assoc, after_callbacks_snoc in Hloop. fold st in Hloop.
    fold signal. py_unfold. rewrite Hloop. eexists. reflexivity.
Qed.

(** ** The selection dialog *)

Section SelectionFacts.

Variable set_iter : gset Z -> list Z.
Variable candidates : list string.
Variables multiple optional : bool.
Variable signal : pyval.

(** The only exception the list comprehension can raise is [IndexError]. *)
Lemma items_at_raises (indices : list Z) (e : exn) :
  items_at candidates indices = inl e -> e = IndexError.
Proof.
  induction indices as [|index rest IH]; cbn; [discriminate|].
  unfold py_getitem.
  destruct (_ || _); [congruence|].
  destruct (candidates !! _); [|congruence].
  destruct (items_at candidates rest); [|discriminate].
  intros [= <-]. now apply IH.
Qed.

Lemma getitem_in_range (index : Z) :
  in_range candidates index ->
  py_getitem candidates index = inr (item_of candidates index).
Proof.
  unfold in_range, py_getitem, item_of. intros [Hlo Hhi].
  destruct (Z.ltb_spec index 0) as [?|_]; [lia|].
  destruct (Z.ltb_spec index 0) as [?|_]; [lia|].
  destruct (Z.leb_spec (Z.of_nat (length candidates)) index) as [?|_]; [lia|].
  cbn [orb].
  destruct (lookup_lt_is_Some_2 candidates (Z.to_nat index)) as [item ->];
    [lia | reflexivity].
Qed.

Lemma items_at_in_range (indices : list Z) :
  Forall (in_range candidates) indices ->
  items_at candidates indices = inr (map (item_of candidates) indices).
Proof.
  induction 1 as [|index rest Hindex _ IH]; cbn; [reflexivity|].
  now rewrite getitem_in_range, IH.
Qed.




End SelectionFacts.

(** The dialog up to its wait loop: a non-[None] candidate list and a string
    message get a window, a sentinel, a label and the list of items; then
    the window fades in. *)
Lemma selection_opens (set_iter : gset Z -> list Z) (text : string)
    (candidates : list string) (window_title : string)
    (multiple optional : bool) (fd : fade_in) (sc : script) (w : world) :
  fade_passes fd = true ->
  exists w1,
    selection set_iter (Some text) (Some candidates) window_title
      multiple optional fd sc w
    = (st ← wait_loop selection_value
              (selection_callback set_iter candidates multiple optional
                 (VObject (next_object w)))
              (run_updates fd sc) selection_initial;
       _safe_finish;;
       selection_outcome set_iter candidates (VObject (next_object w)) st) w1.
Proof.
  intros Hfade. unfold selection, selection_wait. py_step.
  rewrite block_process_passes by easy. eexists. reflexivity.
Qed.

Lemma selection_stops (set_iter : gset Z -> list Z) (text : string)
    (candidates : list string) (window_title : string)
    (multiple optional : bool) (fd : fade_in) (sc : script) (w : world) :
  fade_passes fd = false ->
  fst (selection set_iter (Some text) (Some candidates) window_title
         multiple optional fd sc w)
  = Raise TclError.
Proof.
  intros Hfade. unfold selection, selection_wait. py_step.
  match goal with
  | |- context [_block_process_until_result ?slot ?cb fd sc ?st ?w1] =>
      destruct (block_process_fails slot cb fd sc st w1 Hfade)
        as (w2 & _ & ->)
  end.
  reflexivity.
Qed.


Section SelectionCloses.

Variable set_iter : gset Z -> list Z.
Variable candidates : list string.
Variables multiple optional : bool.
Variable signal : pyval.

(** Once a confirmation has been accepted, only a cancellation takes the
    list out of the slot. *)
Lemma confirmed_stays_confirmed (ev : event) (st : selection_state)
    (items : list string) :
  selection_value st = VList items ->
  selection_cancels ev = false ->
  exists items',
    selection_value
      (after_callback
         (selection_callback set_iter candidates multiple optional signal)
         ev st)
    = VList items'.
Proof.
  intros Hslot Hev. unfold after_callback, selection_callback.
  assert (Hconfirm : exists items',
    selection_value
      match perform_confirmation set_iter candidates optional st with
      | inl _ => st
      | inr st' => st'
      end = VList items').
  { unfold perform_confirmation.
    destruct (_ && _); [now exists items|].
    destruct (selected_items _ _ _); [now exists items|].
    eexists. reflexivity. }
  destruct ev as [| |index| | | | | | |edited]; try discriminate Hev;
    try exact Hconfirm; try (now exists items).
  - destruct (Nat.ltb _ _); now exists items.
  - unfold handle_move_up. destruct (py_mod _ _); now exists items.
  - unfold handle_move_down. destruct (py_mod _ _); now exists items.
Qed.

Lemma confirmed_through (evs : list event) (st : selection_state)
    (items : list string) :
  selection_value st = VList items ->
  forallb (fun ev => negb (selection_cancels ev)) evs = true ->
  exists items',
    selection_value
      (after_callbacks
         (selection_callback set_iter candidates multiple optional signal)
         evs st)
    = VList items'.
Proof.
  revert st items. induction evs as [|ev evs IH]; intros st items Hslot Hevs.
  - now exists items.
  - cbn [forallb] in Hevs. apply andb_prop in Hevs as [Hev Hevs].
    apply negb_true_iff in Hev.
    destruct (confirmed_stays_confirmed ev st items Hslot Hev)
      as [items' Hslot'].
    cbn. now apply (IH _ items').
Qed.

End SelectionCloses.

(** Return or the confirm button, when the confirmation is accepted, no
    cancellation follows it in the same update and the indices selected at
    the end of that update are valid: the dialog returns the candidates
    selected then, in the order in which the set yields their indices. *)
Lemma selection_confirmed (set_iter : gset Z -> list Z) (text : string)
    (candidates : list string) (window_title : string)
    (multiple optional : bool) (fd : fade_in) (sc : script)
    (before : list (list event)) (evs : list event) (last : event)
    (tail : list event) (rest : script) (w : world) :
  fade_passes fd = true ->
  run_updates fd sc
  = map Dispatch before ++ Dispatch (evs ++ last :: tail) :: rest ->
  let callback :=
    selection_callback set_iter candidates multiple optional
      (VObject (next_object w)) in
  keeps_waiting selection_value callback before selection_initial = true ->
  selection_confirms last = true ->
  forallb (fun ev => negb (selection_cancels ev)) tail = true ->
  let confirmed :=
    selected_indices
      (after_callbacks callback (concat before ++ evs) selection_initial) in
  let selected :=
    selected_indices
      (after_callbacks callback (concat before ++ evs ++ last :: tail)
         selection_initial) in
  optional = true \/ confirmed <> ∅ ->
  Forall (in_range candidates) (set_iter confirmed) ->
  Forall (in_range candidates) (set_iter selected) ->
  fst (selection set_iter (Some text) (Some candidates) window_title
         multiple optional fd sc w)
  = Return (VList (map (item_of candidates) (set_iter selected))).
Proof.
  intros Hfade Hrun callback Hwaits Hlast Htail confirmed selected Haccept
    Hthen Hvalid.
  destruct (selection_opens set_iter text candidates window_title multiple
              optional fd sc w Hfade) as [w1 ->].
  set (signal := VObject (next_object w)) in *.
  fold callback.
  set (st := after_callbacks callback (concat before ++ evs)
               selection_initial) in *.
  assert (Hlast_st : selection_value (after_callback callback last st)
                     = VList (map (item_of candidates) (set_iter confirmed))).
  { assert (Hconfirm : callback last st
                       = perform_confirmation set_iter candidates optional st)
      by (destruct last; try discriminate Hlast; reflexivity).
    unfold after_callback. rewrite Hconfirm. unfold perform_confirmation.
    unfold selected_items. fold confirmed.
    rewrite (items_at_in_range candidates _ Hthen).
    destruct Haccept as [-> | Hsome]; [reflexivity|].
    rewrite bool_decide_eq_false_2 by exact Hsome.
    now rewrite andb_false_r. }
  assert (Hfinal : exists items,
    selection_value
      (after_callbacks callback (concat before ++ evs ++ last :: tail)
         selection_initial) = VList items).
  { rewrite app_assoc, after_callbacks_app. fold st.
    change (last :: tail) with ([last] ++ tail).
    rewrite after_callbacks_app.
    apply (confirmed_through set_iter candidates multiple optional signal
             tail _ _ Hlast_st Htail). }
  destruct Hfinal as [items Hfinal].
  destruct (wait_loop_closes selection_value callback
              before (evs ++ last :: tail) rest selection_initial w1
              Hwaits eq_refl) as [w2 Hloop].
  { now rewrite Hfinal. }
  rewrite Hrun. py_unfold. rewrite Hloop.
  unfold selection_outcome. rewrite Hfinal. cbn [is_object].
  unfold selected_items. fold selected.
  rewrite (items_at_in_range candidates _ Hvalid). reflexivity.
Qed.

(** ** Classification of the result slot *)

(** What an input dialog answers for each value its slot can hold. *)
Lemma input_outcome_cases (id : nat) (w : world) :
  input_outcome (VObject id) true (VObject id) w
  = (Raise (ValueError "Input required: Dialog was canceled."), w)
  /\ input_outcome (VObject id) false (VObject id) w = (Return (VBool false), w)
  /\ (forall s, input_outcome (VObject id) true (VStr s) w
                = (Return (VStr s), w))
  /\ input_outcome (VObject id) false (VBool true) w = (Return (VBool true), w)
  /\ input_outcome (VObject id) true VNone w
     = (Raise (ValueError "Input required: blank input."), w)
  /\ input_outcome (VObject id) false VNone w = (Return (VBool false), w).
Proof.
  unfold input_outcome. cbn. rewrite Nat.eqb_refl.
  repeat split. intros [|c s]; reflexivity.
Qed.

(** The sentinel is a bare object: nothing a callback writes on
    confirmation, and not the empty slot, is identical to it. *)
Lemma sentinel_is_distinct (id : nat) (is_input : bool) (st : input_state) :
  is_object (result_value (_do_confirm is_input st)) (VObject id) = false
  /\ is_object VNone (VObject id) = false.
Proof.
  split; [|reflexivity].
  unfold _do_confirm. destruct is_input, (input_entry st); reflexivity.
Qed.

(** ** Cancellation *)




(** C5 (as amended).  The slot is compared by identity with a sentinel made
    for this call, which no value written on confirmation is.  The sentinel
    gives the cancellation outcome: an error for a prompt, [False] for a
    confirm.  A value written on confirmation gives the confirmed outcome:
    the trimmed text of the entry for a prompt, the empty string included,
    and [True] for a confirm.  A slot still [None] (the wait was broken off)
    gives neither: a prompt raises "blank input", a confirm answers
    [False].  The updates are those of the whole call, the fade-in's
    first. *)
Theorem input_dialog_outcomes (text default_text : string) (fd : fade_in)
    (sc : script) (before : list (list event)) (evs : list event)
    (last : event) (rest : script) (w : world) :
  str_truthy text = true ->
  fade_passes fd = true ->
  forallb (forallb quiet) before = true ->
  let ends := run_updates fd sc = ending_script before evs last rest in
  let entered := py_strip (typed_text default_text (concat before ++ evs)) in
  (ends -> input_cancels last = true ->
   fst (prompt (Some text) default_text fd sc w)
   = Raise (ValueError "Input required: Dialog was canceled.")
   /\ fst (confirm (Some text) fd sc w) = Return (VBool false))
  /\ (ends -> input_confirms last = true ->
      fst (prompt (Some text) default_text fd sc w) = Return (VStr entered)
      /\ (entered = "" ->
          fst (prompt (Some text) default_text fd sc w) = Return (VStr ""))
      /\ fst (confirm (Some text) fd sc w) = Return (VBool true))
  /\ (forall is_input st,
         is_object (result_value (_do_confirm is_input st))
           (VObject (next_object w)) = false)
  /\ (forall broken,
         run_updates fd sc
         = map Dispatch before ++ UpdateRaises broken :: rest ->
         fst (prompt (Some text) default_text fd sc w)
         = Raise (ValueError "Input required: blank input.")
         /\ fst (confirm (Some text) fd sc w) = Return (VBool false)).
Proof.
  intros Htext Hfade Hquiet ends entered.
  assert (Hends : forall is_input initial title,
    ends ->
    input_cancels last || input_confirms last = true ->
    exists w',
      _base_input_dialog (Some text) is_input initial title fd sc w
      = input_outcome (VObject (next_object w)) is_input
          (result_value
             (after_callback
                (input_callback (VObject (next_object w)) is_input) last
                (after_callbacks
                   (input_callback (VObject (next_object w)) is_input)
                   (concat before ++ evs)
                   (InputState VNone
                      (if is_input then Some initial else None)))))
          w').
  { intros is_input initial title Hrun Hlast.
    now apply (base_input_dialog_ends text is_input initial title fd sc
                 before evs last rest w). }
  assert (Hbroken : forall is_input initial title broken,
    run_updates fd sc = map Dispatch before ++ UpdateRaises broken :: rest ->
    exists w',
      _base_input_dialog (Some text) is_input initial title fd sc w
      = input_outcome (VObject (next_object w)) is_input VNone w').
  { intros is_input initial title broken Hrun.
    destruct (base_input_dialog_opens text is_input initial title
                fd sc w Htext Hfade) as [w1 ->].
    rewrite Hrun.
    destruct (wait_loop_idle result_value
                (input_callback (VObject (next_object w)) is_input) quiet
                (quiet_keeps_input_waiting _ is_input) before
                (UpdateRaises broken :: rest)
                (InputState VNone
                   (if is_input then Some initial else None))
                w1 Hquiet eq_refl)
      as [Hslot [w2 Hloop]].
    py_unfold. rewrite Hloop. cbn [wait_loop]. rewrite Hslot. py_step.
    destruct (result_value _); try discriminate Hslot.
    eexists. reflexivity. }
  split; [|split; [|split]].
  - intros Hrun Hlast. unfold prompt, confirm.
    destruct (Hends true default_text (Some "Input Required") Hrun)
      as [w1 ->]; [now rewrite Hlast|].
    destruct (Hends false "" (Some "Confirm") Hrun) as [w2 ->];
      [now rewrite Hlast|].
    rewrite !cancel_writes_sentinel by exact Hlast.
    destruct (input_outcome_cases (next_object w) w1) as [-> _].
    destruct (input_outcome_cases (next_object w) w2) as (_ & -> & _).
    split; reflexivity.
  - intros Hrun Hlast. unfold prompt, confirm.
    destruct (Hends true default_text (Some "Input Required") Hrun)
      as [w1 ->]; [now rewrite Hlast, orb_true_r|].
    destruct (Hends false "" (Some "Confirm") Hrun) as [w2 ->];
      [now rewrite Hlast, orb_true_r|].
    assert (Hprompt :
      result_value
        (after_callback (input_callback (VObject (next_object w)) true) last
           (after_callbacks (input_callback (VObject (next_object w)) true)
              (concat before ++ evs) (InputState VNone (Some default_text))))
      = VStr entered).
    { unfold after_callback.
      destruct last; try discriminate Hlast; cbn [input_callback];
        unfold _do_confirm; rewrite input_entry_after; fold entered;
        destruct entered; reflexivity. }
    assert (Hconfirm :
      result_value
        (after_callback (input_callback (VObject (next_object w)) false) last
           (after_callbacks (input_callback (VObject (next_object w)) false)
              (concat before ++ evs) (InputState VNone None)))
      = VBool true).
    { destruct last; try discriminate Hlast; reflexivity. }
    rewrite Hprompt, Hconfirm.
    destruct (input_outcome_cases (next_object w) w1)
      as (_ & _ & Hstr & _).
    destruct (input_outcome_cases (next_object w) w2)
      as (_ & _ & _ & Htrue & _).
    rewrite Hstr, Htrue. repeat split. now intros ->.
  - intros is_input st. apply sentinel_is_distinct.
  - intros broken Hrun. unfold prompt, confirm.
    destruct (Hbroken true default_text (Some "Input Required") broken Hrun)
      as [w1 ->].
    destruct (Hbroken false "" (Some "Confirm") broken Hrun) as [w2 ->].
    split; reflexivity.
Qed.

Lemma input_dialog_outcomes_witness :
  fst (prompt (Some "Enter your name:") "Alice" calm
         (ending_script [[EntryEdited "  "]] [] KeyReturn []) initial_world)
  = Return (VStr "")
  /\ fst (confirm (Some "Do you want to continue?") calm
            (ending_script [[EntryEdited "  "]] [] KeyReturn []) initial_world)
     = Return (VBool true).
Proof.
  split.
  - destruct (input_dialog_outcomes "Enter your name:" "Alice" calm
                (ending_script [[EntryEdited "  "]] [] KeyReturn [])
                [[]; [EntryEdited "  "]] [] KeyReturn [] initial_world
                eq_refl eq_refl eq_refl) as (_ & Hconfirm & _).
    destruct (Hconfirm eq_refl eq_refl) as (_ & Hempty & _).
    apply Hempty. reflexivity.
  - destruct (input_dialog_outcomes "Do you want to continue?" "" calm
                (ending_script [[EntryEdited "  "]] [] KeyReturn [])
                [[]; [EntryEdited "  "]] [] KeyReturn [] initial_world
                eq_refl eq_refl eq_refl) as (_ & Hconfirm & _).
    destruct (Hconfirm eq_refl eq_refl) as (_ & _ & Htrue).
    exact Htrue.
Defined.

(** C5 as stated fails on a slot that is not the sentinel and yet was never
    written: when [update()] raises, the loop is left with the slot still
    [None], and the prompt raises while the confirm answers [False]. *)
Lemma broken_wait_is_not_confirmed :
  is_object VNone (VObject 0) = false
  /\ fst (prompt (Some "Enter your name:") "Alice" calm
            [UpdateRaises TclError] initial_world)
     = Raise (ValueError "Input required: blank input.")
  /\ fst (confirm (Some "Do you want to continue?") calm
            [UpdateRaises TclError] initial_world)
     = Return (VBool false).
Proof. repeat split. Qed.

(** ** Validation of the arguments *)

(** An alert given a string, be it empty, starts by creating its window and
    showing the string. *)
Lemma alert_opens (kind : AlertType) (title : option string) (text : string)
    (winfo_exists : exn + bool) (destroy : exn + unit) (fd : fade_in)
    (sc : script) (w : world) :
  exists effects,
    trace (snd (alert kind title (Some text) winfo_exists destroy fd sc w))
    = trace w
      ++ WindowCreated (str_or title (kind_title kind))
      :: MessageShown (_truncate_message text MESSAGE_MAX_LENGTH)
      :: effects.
Proof.
  unfold alert, _base_alert_dialog. py_step.
  match goal with
  | |- context [_block_process_until_result ?slot ?callback fd sc VNone ?w1] =>
      destruct (block_process_extends slot callback fd sc VNone w1 eq_refl)
        as [more Hmore];
      destruct (_block_process_until_result slot callback fd sc VNone w1)
        as [[value|e|] w2]
  end;
    cbn [snd trace] in *;
    try (destruct winfo_exists as [e|[|]]; cbn [snd trace];
         try (destruct destroy as [e|[]]; cbn [snd trace]));
    rewrite Hmore, <- !app_assoc; cbn [app]; eexists; reflexivity.
Qed.

(** C2 (as amended).  A prompt or a confirm given [None] or the empty string
    as message raises [ValueError] and leaves the world as it found it: no
    window, no object.  An alert does so for [None], and a selection for a
    candidate list that is [None].  An alert given the empty string is not
    refused: it creates its window. *)
Theorem message_validation (set_iter : gset Z -> list Z)
    (message : option string) (default_text window_title : string)
    (title : option string) (kind : AlertType) (winfo_exists : exn + bool)
    (destroy : exn + unit) (multiple optional : bool) (fd : fade_in)
    (sc : script) (w : world) :
  opt_truthy message = false ->
  prompt message default_text fd sc w
  = (Raise (ValueError "A message must be provided for input dialogs."), w)
  /\ confirm message fd sc w
     = (Raise (ValueError "A message must be provided for input dialogs."), w)
  /\ alert kind title None winfo_exists destroy fd sc w
     = (Raise (ValueError "Alert message must be provided."), w)
  /\ selection set_iter message None window_title multiple optional fd sc w
     = (Raise (ValueError "The 'selections' parameter cannot be None."), w)
  /\ exists effects,
       trace (snd (alert kind title (Some "") winfo_exists destroy fd sc w))
       = trace w
         ++ WindowCreated (str_or title (kind_title kind))
         :: MessageShown "" :: effects.
Proof.
  intros Hmessage. unfold prompt, confirm, _base_input_dialog.
  rewrite Hmessage. repeat split.
  apply (alert_opens kind title "" winfo_exists destroy fd sc w).
Qed.

Lemma message_validation_witness :
  prompt (Some "") "Alice" calm [Dispatch [KeyReturn]] initial_world
  = (Raise (ValueError "A message must be provided for input dialogs."),
     initial_world)
  /\ confirm None calm [Dispatch [KeyReturn]] initial_world
     = (Raise (ValueError "A message must be provided for input dialogs."),
        initial_world).
Proof.
  split.
  - apply (message_validation elements (Some "") "Alice" "Selection Required"
             None INFO (inr false) (inr tt) false false calm
             [Dispatch [KeyReturn]] initial_world eq_refl).
  - apply (message_validation elements None "Alice" "Selection Required"
             None INFO (inr false) (inr tt) false false calm
             [Dispatch [KeyReturn]] initial_world eq_refl).
Defined.

(** C2 as stated fails for the alert and for the selection: given the empty
    string as message, each creates its window, shows the empty text and
    returns when the user is done. *)
Lemma empty_message_opens_a_window :
  alert INFO None (Some "") (inr false) (inr tt) calm
    [Dispatch [ClickConfirm]] initial_world
  = (Return VNone,
     World 0 [WindowCreated "Info"; MessageShown ""; WindowShown;
              WindowFinished])
  /\ selection elements (Some "") (Some ["a"; "b"]) "Selection Required"
       false false calm [Dispatch [ClickItem 0; ClickConfirm]] initial_world
     = (Return (VList ["a"]),
        World 1 [WindowCreated "Selection Required"; MessageShown "";
                 ItemsListed ["a"; "b"]; WindowShown; WindowFinished]).
Proof. split; vm_compute; reflexivity. Qed.

(** ** Confirming a selection *)

(** A confirmation, accepted or not, selects nothing and deselects
    nothing. *)
Lemma confirmation_keeps_selection (set_iter : gset Z -> list Z)
    (candidates : list string) (multiple optional : bool) (signal : pyval)
    (ev : event) (st : selection_state) :
  selection_confirms ev = true ->
  selected_indices
    (after_callback
       (selection_callback set_iter candidates multiple optional signal)
       ev st)
  = selected_indices st.
Proof.
  intros Hev.
  assert (Hconfirm :
    selected_indices
      match perform_confirmation set_iter candidates optional st with
      | inl _ => st
      | inr st' => st'
      end = selected_indices st).
  { unfold perform_confirmation. destruct (_ && _); [reflexivity|].
    now destruct (selected_items _ _ _). }
  destruct ev; try discriminate Hev; exact Hconfirm.
Qed.

(** C3.  Confirming with nothing selected when the selection is required:
    the callback raises "Selection required." inside the event loop, which
    reports it and goes on; the dialog stays open, and no fade-in and no
    script make the call raise that error.  When the selection is optional
    the same confirmation ends the dialog with the empty list. *)
Theorem selection_required_stays_inside :
  selection elements (Some "Pick one") (Some ["a"; "b"]) "Selection Required"
    false false calm [Dispatch [ClickConfirm]] initial_world
  = (Blocked,
     World 1 [WindowCreated "Selection Required"; MessageShown "Pick one";
              ItemsListed ["a"; "b"]; WindowShown;
              CallbackFailed (ValueError "Selection required.")])
  /\ (forall set_iter message selections window_title multiple optional fd
             sc w,
         fst (selection set_iter message selections window_title
                multiple optional fd sc w)
         <> Raise (ValueError "Selection required."))
  /\ (forall set_iter text candidates window_title multiple fd sc before
             rest w,
         set_iter ∅ = [] ->
         fade_passes fd = true ->
         run_updates fd sc = ending_script before [] ClickConfirm rest ->
         concat before = [] ->
         fst (selection set_iter (Some text) (Some candidates) window_title
                multiple true fd sc w)
         = Return (VList [])).
Proof.
  split; [vm_compute; reflexivity | split].
  - intros set_iter message selections window_title multiple optional fd sc
      w.
    destruct selections as [candidates|]; [|discriminate].
    destruct message as [text|]; [|discriminate].
    destruct (fade_passes fd) eqn:Hfade;
      [|now rewrite selection_stops by exact Hfade].
    destruct (selection_opens set_iter text candidates window_title multiple
                optional fd sc w Hfade) as [w1 ->].
    py_unfold.
    destruct (wait_loop_returns_or_blocks selection_value
                (selection_callback set_iter candidates multiple optional
                   (VObject (next_object w)))
                (run_updates fd sc) selection_initial w1)
      as [w2 [[st ->] | ->]];
      [|discriminate].
    unfold selection_outcome. destruct (is_object _ _); [discriminate|].
    unfold selected_items.
    destruct (items_at candidates (set_iter (selected_indices st)))
      as [e|items] eqn:Hitems; [|discriminate].
    apply items_at_raises in Hitems as ->. discriminate.
  - intros set_iter text candidates window_title multiple fd sc before rest w
      Hempty Hfade Hrun Hbefore.
    set (callback := selection_callback set_iter candidates multiple true
                       (VObject (next_object w))).
    assert (Hwaits : keeps_waiting selection_value callback before
                       selection_initial = true)
      by now apply empty_batches_wait.
    pose proof (selection_confirmed set_iter text candidates window_title
                  multiple true fd sc before [] ClickConfirm [] rest w
                  Hfade Hrun Hwaits eq_refl eq_refl) as Hconfirmed.
    cbv zeta in Hconfirmed. fold callback in Hconfirmed.
    rewrite Hbefore in Hconfirmed.
    change (after_callbacks callback ([] ++ []) selection_initial)
      with selection_initial in Hconfirmed.
    change (after_callbacks callback ([] ++ [] ++ [ClickConfirm])
              selection_initial)
      with (after_callback callback ClickConfirm selection_initial)
      in Hconfirmed.
    unfold callback in Hconfirmed.
    rewrite confirmation_keeps_selection in Hconfirmed by reflexivity.
    change (selected_indices selection_initial) with (∅ : gset Z)
      in Hconfirmed.
    rewrite Hempty in Hconfirmed.
    apply Hconfirmed; [now left | constructor | constructor].
Qed.

(** ** What a confirmed selection returns *)


Lemma elements_lawful : lawful_iteration elements.
Proof. intros selected. reflexivity. Qed.





(** ** The set of selected indices *)

Section SetDiscipline.

Variable set_iter : gset Z -> list Z.
Variable candidates : list string.
Variable optional : bool.
Variable signal : pyval.

Lemma single_toggle_selects (index : Z) (st : selection_state) :
  selected_indices (handle_toggle_selection false index st) = {[index]}.
Proof. cbn. apply (left_id_L ∅ (∪)). Qed.

Lemma multi_toggle_flips (index : Z) (st : selection_state) :
  selected_indices (handle_toggle_selection true index st)
  = if decide (index ∈ selected_indices st)
    then selected_indices st ∖ {[index]}
    else selected_indices st ∪ {[index]}.
Proof. reflexivity. Qed.

(** In single-select mode a callback leaves the set as it was or makes it a
    singleton. *)
Lemma single_callback_selected (ev : event) (st : selection_state) :
  let st' :=
    after_callback
      (selection_callback set_iter candidates false optional signal) ev st in
  selected_indices st' = selected_indices st
  \/ exists index, selected_indices st' = {[index]}.
Proof.
  unfold after_callback, selection_callback.
  destruct ev as [| |index| | | | | | |text]; cbn zeta;
    try (left; reflexivity).
  - unfold perform_confirmation.
    destruct (_ && _); [now left|].
    destruct (selected_items _ _ _); now left.
  - destruct (Nat.ltb _ _); [|now left].
    right. eexists. apply single_toggle_selects.
  - unfold perform_confirmation.
    destruct (_ && _); [now left|].
    destruct (selected_items _ _ _); now left.
  - unfold handle_move_up. destruct (py_mod _ _); now left.
  - unfold handle_move_down. destruct (py_mod _ _); now left.
  - right. eexists. apply single_toggle_selects.
Qed.

Lemma single_events_selected (evs : list event) (st : selection_state) :
  (size (selected_indices st) <= 1)%nat ->
  (size (selected_indices
           (after_callbacks
              (selection_callback set_iter candidates false optional signal)
              evs st)) <= 1)%nat.
Proof.
  revert st. induction evs as [|ev evs IH]; intros st Hsize; [exact Hsize|].
  cbn. apply IH.
  destruct (single_callback_selected ev st) as [-> | [index ->]];
    [exact Hsize | now rewrite size_singleton].
Qed.

End SetDiscipline.

(** Clicking the first [count] items of a multi-select dialog, one after the
    other, selects them all. *)
Lemma click_each_selects_all (set_iter : gset Z -> list Z) (optional : bool)
    (signal : pyval) (total count : nat) :
  (count <= total)%nat ->
  let selected :=
    selected_indices
      (after_callbacks
         (selection_callback set_iter (replicate total "x") true optional
            signal)
         (map ClickItem (seq 0 count)) selection_initial) in
  (forall index, index ∈ selected <-> 0 <= index < Z.of_nat count)
  /\ size selected = count.
Proof.
  induction count as [|count IH]; intros Hcount; cbn zeta.
  - cbn. split; [|apply size_empty].
    intros index. split; [set_solver | lia].
  - destruct IH as [Hmem Hsize]; [lia|].
    rewrite seq_S, map_app. cbn [Nat.add map]. rewrite after_callbacks_snoc.
    set (st := after_callbacks _ (map ClickItem (seq 0 count)) _) in *.
    unfold after_callback. cbn [selection_callback].
    rewrite length_replicate.
    destruct (Nat.ltb_spec count total) as [_|?]; [|lia].
    rewrite multi_toggle_flips.
    destruct (decide (Z.of_nat count ∈ selected_indices st)) as [Hin|Hout].
    { apply Hmem in Hin. lia. }
    split.
    + intros index. rewrite elem_of_union, elem_of_singleton, Hmem. lia.
    + rewrite size_union, size_singleton, Hsize
        by now apply disjoint_singleton_r.
      lia.
Qed.

(** C7.  In single-select mode at most one index is selected after any
    sequence of events whatever, and toggling B after A leaves exactly B.
    In multi-select mode a toggle flips the membership of its index and of
    no other, and the set can grow to any size. *)
Theorem selection_set_discipline :
  (forall set_iter candidates optional signal evs,
      (size (selected_indices
               (after_callbacks
                  (selection_callback set_iter candidates false optional signal)
                  evs selection_initial)) <= 1)%nat)
  /\ (forall a b st,
         selected_indices
           (handle_toggle_selection false b
              (handle_toggle_selection false a st))
         = {[b]})
  /\ (forall index st,
         let before := selected_indices st in
         let after :=
           selected_indices (handle_toggle_selection true index st) in
         (index ∈ after <-> index ∉ before)
         /\ forall other,
              other <> index -> (other ∈ after <-> other ∈ before))
  /\ (forall set_iter optional signal total,
         size (selected_indices
                 (after_callbacks
                    (selection_callback set_iter (replicate total "x") true
                       optional signal)
                    (map ClickItem (seq 0 total)) selection_initial))
         = total).
Proof.
  split; [|split; [|split]].
  - intros. apply single_events_selected. cbn. rewrite size_empty. lia.
  - intros. apply single_toggle_selects.
  - intros index st before after. unfold after.
    rewrite multi_toggle_flips. fold before.
    destruct (decide (index ∈ before)) as [Hin|Hout]; split;
      try intros other Hother;
      rewrite ?elem_of_difference, ?elem_of_union, ?elem_of_singleton;
      intuition congruence.
  - intros. now apply click_each_selects_all.
Qed.

(** ** Moving the focus *)

(** C9.  With an empty candidate list, which the dialog accepts, the Up and
    Down callbacks fail: the division by the length raises
    [ZeroDivisionError], which the event loop reports.  With at least one
    candidate they cannot fail and move the focus circularly, within the
    list. *)
Theorem focus_moves :
  (forall st,
      handle_move_up [] st = inl ZeroDivisionError
      /\ handle_move_down [] st = inl ZeroDivisionError)
  /\ selection elements (Some "Pick any") (Some []) "Selection Required"
       true true calm [Dispatch [KeyDown]; Dispatch [KeyUp]] initial_world
     = (Blocked,
        World 1 [WindowCreated "Selection Required"; MessageShown "Pick any";
                 ItemsListed []; WindowShown;
                 CallbackFailed ZeroDivisionError;
                 CallbackFailed ZeroDivisionError])
  /\ (forall candidates st,
         candidates <> [] ->
         let count := Z.of_nat (length candidates) in
         handle_move_up candidates st
         = inr (SelectionState (selection_value st) (selected_indices st)
                  ((active_focus_index st - 1) mod count))
         /\ handle_move_down candidates st
            = inr (SelectionState (selection_value st) (selected_indices st)
                     ((active_focus_index st + 1) mod count))
         /\ in_range candidates ((active_focus_index st - 1) mod count)
         /\ in_range candidates ((active_focus_index st + 1) mod count)).
Proof.
  split; [|split].
  - intros st. split; reflexivity.
  - vm_compute. reflexivity.
  - intros candidates st Hne count.
    assert (Hcount : 0 < count)
      by (subst count; destruct candidates; [congruence | cbn; lia]).
    unfold handle_move_up, handle_move_down, py_mod. fold count.
    destruct (Z.eqb_spec count 0) as [?|_]; [lia|].
    repeat split; try reflexivity; apply Z.mod_pos_bound; lia.
Qed.

(** * Further properties *)

(** ** Trimming *)

Section StripFacts.

Lemma string_app_cons (c : ascii) (s t : string) :
  String c s +:+ t = String c (s +:+ t).
Proof. reflexivity. Qed.

Lemma string_app_assoc (s t u : string) : (s +:+ t) +:+ u = s +:+ (t +:+ u).
Proof.
  induction s as [|c s IH]; [reflexivity|].
  now rewrite !string_app_cons, IH.
Qed.

Lemma string_app_nil_r (s : string) : s +:+ "" = s.
Proof.
  induction s as [|c s IH]; [reflexivity|].
  now rewrite string_app_cons, IH.
Qed.

Lemma rev_app_spec (s t : string) :
  String.rev_app s t = String.rev s +:+ t.
Proof.
  unfold String.rev. revert t.
  induction s as [|c s IH]; intros t; [reflexivity|].
  cbn [String.rev_app].
  rewrite (IH (String c t)), (IH (String c "")).
  now rewrite string_app_assoc.
Qed.

Lemma rev_cons (c : ascii) (s : string) :
  String.rev (String c s) = String.rev s +:+ String c "".
Proof. unfold String.rev at 1. cbn [String.rev_app]. apply rev_app_spec. Qed.

Lemma rev_app_distr (s t : string) :
  String.rev (s +:+ t) = String.rev t +:+ String.rev s.
Proof.
  induction s as [|c s IH].
  - change ("" +:+ t) with t. now rewrite string_app_nil_r.
  - now rewrite string_app_cons, !rev_cons, IH, string_app_assoc.
Qed.

Lemma rev_involutive (s : string) : String.rev (String.rev s) = s.
Proof.
  induction s as [|c s IH]; [reflexivity|].
  now rewrite rev_cons, rev_app_distr, IH.
Qed.

Lemma all_blank_app (s t : string) :
  all_blank (s +:+ t) = all_blank s && all_blank t.
Proof.
  induction s as [|c s IH]; [reflexivity|].
  rewrite string_app_cons. cbn [all_blank].
  now rewrite IH, andb_assoc.
Qed.

Lemma all_blank_rev (s : string) : all_blank (String.rev s) = all_blank s.
Proof.
  induction s as [|c s IH]; [reflexivity|].
  rewrite rev_cons, all_blank_app, IH. cbn [all_blank].
  now rewrite andb_true_r, andb_comm.
Qed.

Lemma app_is_empty (s t : string) : s +:+ t = "" -> t = "".
Proof. destruct s; [easy | discriminate]. Qed.

Lemma last_char_app (s t : string) :
  t <> "" -> last_char (s +:+ t) = last_char t.
Proof.
  intros Ht. induction s as [|c s IH]; [reflexivity|].
  rewrite string_app_cons. cbn [last_char]. rewrite IH.
  destruct (s +:+ t) eqn:Hst; [|reflexivity].
  now apply app_is_empty in Hst.
Qed.

Lemma last_char_rev (s : string) : last_char (String.rev s) = first_char s.
Proof.
  destruct s as [|c s]; [reflexivity|].
  rewrite rev_cons. now rewrite last_char_app.
Qed.

Lemma first_char_rev (s : string) : first_char (String.rev s) = last_char s.
Proof. now rewrite <- last_char_rev, rev_involutive. Qed.

(** [lstrip] removes a blank prefix and stops at a character that is not
    blank. *)
Lemma lstrip_spec (s : string) :
  exists blanks,
    s = blanks +:+ py_lstrip s
    /\ all_blank blanks = true
    /\ is_blank (first_char (py_lstrip s)) = false.
Proof.
  induction s as [|c s (blanks & Hs & Hblanks & Hfirst)].
  - now exists "".
  - cbn [py_lstrip]. destruct (py_isspace c) eqn:Hc.
    + exists (String c blanks). rewrite string_app_cons, <- Hs.
      cbn [all_blank]. now rewrite Hc, Hblanks.
    + exists "". cbn [first_char is_blank all_blank]. auto.
Qed.

Lemma lstrip_fixed (s : string) :
  is_blank (first_char s) = false -> py_lstrip s = s.
Proof. destruct s as [|c s]; cbn; [reflexivity | now intros ->]. Qed.

(** What [strip] does: it cuts a blank prefix and a blank suffix away and
    leaves a string with neither. *)
Lemma strip_spec (s : string) :
  exists before after,
    s = before +:+ py_strip s +:+ after
    /\ all_blank before = true /\ all_blank after = true
    /\ trimmed (py_strip s).
Proof.
  unfold py_strip.
  destruct (lstrip_spec s) as (before & Hs & Hbefore & Hfirst).
  set (m := py_lstrip s) in *.
  destruct (lstrip_spec (String.rev m)) as (blanks & Hm & Hblanks & Hlast).
  set (r := py_lstrip (String.rev m)) in *.
  assert (Hsplit : m = String.rev r +:+ String.rev blanks).
  { rewrite <- rev_app_distr, <- Hm. now rewrite rev_involutive. }
  exists before, (String.rev blanks).
  split; [now rewrite <- Hsplit|].
  split; [exact Hbefore|]. split; [now rewrite all_blank_rev|].
  split; [|now rewrite last_char_rev].
  destruct (String.rev r) as [|c t] eqn:Hr; [reflexivity|].
  rewrite Hsplit in Hfirst. exact Hfirst.
Qed.

Lemma strip_fixed (s : string) : trimmed s -> py_strip s = s.
Proof.
  intros [Hfirst Hlast]. unfold py_strip.
  rewrite (lstrip_fixed s Hfirst).
  rewrite lstrip_fixed by now rewrite first_char_rev.
  apply rev_involutive.
Qed.

End StripFacts.

(** ** What a wait leaves behind *)

Section WaitWorld.

Context {S : Type}.
Variable slot : S -> pyval.
Variable callback : event -> S -> exn + S.

(** The only mark a wait leaves on the world is the report of each callback
    that failed. *)
Lemma dispatch_world (evs : list event) (st : S) (w : world) :
  exists reports,
    snd (dispatch callback evs st w)
    = World (next_object w) (trace w ++ map CallbackFailed reports)
    /\ Forall (fun e => exists ev st', callback ev st' = inl e) reports.
Proof.
  revert st w. induction evs as [|ev evs IH]; intros st w; cbn [dispatch].
  - exists []. cbn. rewrite app_nil_r. split; [now destruct w | constructor].
  - destruct (callback ev st) as [e|st'] eqn:Hcall; [|apply IH].
    py_step.
    destruct (IH st (World (next_object w) (trace w ++ [CallbackFailed e])))
      as (reports & -> & Hreports).
    exists (e :: reports). cbn. rewrite <- app_assoc.
    split; [reflexivity|]. constructor; eauto.
Qed.

Lemma wait_loop_world (sc : script) (st : S) (w : world) :
  exists reports,
    snd (wait_loop slot callback sc st w)
    = World (next_object w) (trace w ++ map CallbackFailed reports)
    /\ Forall (fun e => exists ev st', callback ev st' = inl e) reports.
Proof.
  assert (Hstay : exists reports,
            w = World (next_object w) (trace w ++ map CallbackFailed reports)
            /\ Forall (fun e => exists ev st', callback ev st' = inl e)
                 reports).
  { exists []. cbn. rewrite app_nil_r. split; [now destruct w | constructor]. }
  revert st w Hstay. induction sc as [|[evs|e] sc IH]; intros st w Hstay;
    cbn [wait_loop]; destruct (is_none (slot st)); try exact Hstay.
  clear Hstay. py_unfold.
  destruct (dispatch_world evs st w) as (reports & Hworld & Hreports).
  destruct (dispatch_returns callback evs st w) as [w1 Hw1].
  rewrite Hw1 in *. cbn [snd] in Hworld. subst w1.
  edestruct (IH (after_callbacks callback evs st)) as (more & -> & Hmore).
  { exists []. cbn. rewrite app_nil_r. split; [reflexivity | constructor]. }
  exists (reports ++ more). cbn. rewrite map_app, app_assoc.
  split; [reflexivity | now apply Forall_app].
Qed.

(** The variables a wait hands back are those some sequence of callbacks
    has produced: what every callback keeps, the wait keeps. *)
Lemma wait_loop_invariant (P : S -> Prop) (sc : script) (st st' : S)
    (w w' : world) :
  (forall ev st, P st -> P (after_callback callback ev st)) ->
  P st ->
  wait_loop slot callback sc st w = (Return st', w') ->
  P st'.
Proof.
  intros Hkeep. revert st w.
  assert (Hevs : forall evs st, P st -> P (after_callbacks callback evs st)).
  { induction evs as [|ev evs IH]; intros st Hst; [exact Hst|].
    cbn. apply IH, Hkeep, Hst. }
  induction sc as [|[evs|e] sc IH]; intros st w Hst; cbn [wait_loop];
    destruct (is_none (slot st)); try (intros [= <- <-]; exact Hst);
    try discriminate.
  py_unfold.
  destruct (dispatch_returns callback evs st w) as [w1 ->].
  apply IH, Hevs, Hst.
Qed.

End WaitWorld.

(** ** The input dialogs, whatever the user does *)

Lemma input_callback_succeeds (signal : pyval) (is_input : bool) (ev : event)
    (st : input_state) (e : exn) :
  input_callback signal is_input ev st <> inl e.
Proof. destruct ev; discriminate. Qed.

Lemma input_wait_world (signal : pyval) (is_input : bool) (sc : script)
    (st : input_state) (w : world) :
  snd (wait_loop result_value (input_callback signal is_input) sc st w) = w.
Proof.
  destruct (wait_loop_world result_value (input_callback signal is_input)
              sc st w) as (reports & -> & Hreports).
  destruct reports as [|e reports].
  - cbn. rewrite app_nil_r. now destruct w.
  - apply Forall_cons in Hreports as [(ev & st' & Hfail) _].
    now apply input_callback_succeeds in Hfail.
Qed.

Lemma input_outcome_world (signal : pyval) (is_input : bool) (value : pyval)
    (w : world) :
  snd (input_outcome signal is_input value w) = w
  /\ fst (input_outcome signal is_input value w) <> Blocked.
Proof.
  unfold input_outcome.
  destruct (is_object value signal), is_input;
    try destruct (negb (py_truthy value) && ne_empty_str value);
    split; try reflexivity; discriminate.
Qed.

Lemma input_reported (signal : pyval) (is_input : bool) (w w' : world) :
  reported (input_callback signal is_input) w w' -> w' = w.
Proof.
  intros ([|e reports] & -> & Hreports).
  - cbn. rewrite app_nil_r. now destruct w.
  - apply Forall_cons in Hreports as [(ev & st' & Hfail) _].
    now apply input_callback_succeeds in Hfail.
Qed.

(** X1.  A call of an input dialog with a usable message creates one
    sentinel and one window and shows the truncated message (and the entry,
    for a prompt).  When the fade-in comes through, the window is finished
    on every path that comes back, the raising ones included, and nothing is
    printed or reported.  When a call of the fade-in fails, the dialog
    raises [TclError] and the window is never finished. *)
Theorem input_dialog_effects (text : string) (is_input : bool)
    (default_text : string) (window_title : option string) (fd : fade_in)
    (sc : script) (w : world) :
  str_truthy text = true ->
  let result :=
    _base_input_dialog (Some text) is_input default_text window_title fd sc
      w in
  let built :=
    trace w
    ++ [WindowCreated (str_or window_title "Application");
        MessageShown (_truncate_message text MESSAGE_MAX_LENGTH)]
    ++ (if is_input then [EntryCreated default_text] else []) in
  (fade_passes fd = true ->
   snd result
   = World (S (next_object w))
       (built ++ [WindowShown]
        ++ match fst result with Blocked => [] | _ => [WindowFinished] end))
  /\ (fade_passes fd = false ->
      fst result = Raise TclError
      /\ exists appeared,
           (appeared = [] \/ appeared = [WindowShown])
           /\ snd result = World (S (next_object w)) (built ++ appeared)).
Proof.
  intros Htext result built. subst result built.
  unfold _base_input_dialog.
  cbn [opt_truthy]. rewrite Htext. cbn [negb]. py_step.
  assert (Hgoal : forall w1 : world,
    next_object w1 = S (next_object w) ->
    let result :=
      match
        wait_loop result_value
          (input_callback (VObject (next_object w)) is_input)
          (run_updates fd sc)
          (InputState VNone (if is_input then Some default_text else None)) w1
      with
      | (Return st, w2) =>
          input_outcome (VObject (next_object w)) is_input (result_value st)
            (World (next_object w2) (trace w2 ++ [WindowFinished]))
      | (Raise e, w2) => (Raise e, w2)
      | (Blocked, w2) => (Blocked, w2)
      end in
    snd result
    = World (S (next_object w))
        (trace w1
         ++ match fst result with Blocked => [] | _ => [WindowFinished] end)).
  { intros [next1 trace1] Hnext. cbn [next_object trace] in *.
    subst next1.
    pose proof (input_wait_world (VObject (next_object w)) is_input
                  (run_updates fd sc)
                  (InputState VNone
                     (if is_input then Some default_text else None))
                  (World (S (next_object w)) trace1)) as Hworld.
    destruct (wait_loop_returns_or_blocks result_value
                (input_callback (VObject (next_object w)) is_input)
                (run_updates fd sc)
                (InputState VNone
                   (if is_input then Some default_text else None))
                (World (S (next_object w)) trace1))
      as [w2 [[st Hloop] | Hloop]];
      rewrite Hloop in *; cbn [snd] in Hworld; subst w2; cbn zeta;
      cbn [next_object trace].
    - destruct (input_outcome_world (VObject (next_object w)) is_input
                  (result_value st)
                  (World (S (next_object w)) (trace1 ++ [WindowFinished])))
        as [-> Hback].
      destruct (fst (input_outcome _ _ _ _)); try reflexivity.
      now contradiction Hback.
    - cbn. now rewrite app_nil_r. }
  assert (Hstop : forall w1 : world,
    fade_passes fd = false ->
    let result :=
      match
        _block_process_until_result result_value
          (input_callback (VObject (next_object w)) is_input) fd sc
          (InputState VNone (if is_input then Some default_text else None)) w1
      with
      | (Return st, w2) =>
          input_outcome (VObject (next_object w)) is_input (result_value st)
            (World (next_object w2) (trace w2 ++ [WindowFinished]))
      | (Raise e, w2) => (Raise e, w2)
      | (Blocked, w2) => (Blocked, w2)
      end in
    fst result = Raise TclError
    /\ exists appeared,
         (appeared = [] \/ appeared = [WindowShown])
         /\ snd result = World (next_object w1) (trace w1 ++ appeared)).
  { intros w1 Hfade.
    destruct (block_process_fails result_value
                (input_callback (VObject (next_object w)) is_input) fd sc
                (InputState VNone
                   (if is_input then Some default_text else None))
                w1 Hfade) as (w2 & Hw2 & ->).
    cbn zeta. split; [reflexivity|].
    destruct Hw2 as [-> | Hw2].
    - exists []. split; [now left|]. cbn. rewrite app_nil_r. now destruct w1.
    - apply input_reported in Hw2 as ->. exists [WindowShown].
      split; [now right | reflexivity]. }
  split; intros Hfade.
  - destruct is_input; py_step;
      rewrite block_process_passes by easy;
      (etransitivity; [exact (Hgoal (shown (World _ _)) eq_refl)|]);
      cbn [shown trace next_object]; f_equal; now rewrite <- !app_assoc.
  - destruct is_input; py_step;
      match goal with
      | |- context [_block_process_until_result _ _ fd sc _ ?w1] =>
          destruct (Hstop w1 Hfade) as (Hraise & appeared & Happeared & Hworld)
      end;
      (split; [exact Hraise|]); exists appeared;
      (split; [exact Happeared|]); rewrite Hworld;
      cbn [next_object trace]; f_equal; now rewrite <- !app_assoc.
Qed.

Lemma input_dialog_effects_witness :
  snd (prompt (Some "Enter your name:") "Alice" calm
         [Dispatch [EntryEdited "Bob"]; Dispatch [KeyEscape]] initial_world)
  = World 1 [WindowCreated "Input Required"; MessageShown "Enter your name:";
             EntryCreated "Alice"; WindowShown; WindowFinished]
  /\ fst (prompt (Some "Enter your name:") "Alice"
            (FadeIn (fun index => negb (Nat.eqb index 5)) (fun _ => Some []))
            [Dispatch [KeyReturn]] initial_world)
     = Raise TclError.
Proof.
  split.
  - exact (proj1 (input_dialog_effects "Enter your name:" true "Alice"
                    (Some "Input Required") calm
                    [Dispatch [EntryEdited "Bob"]; Dispatch [KeyEscape]]
                    initial_world eq_refl) eq_refl).
  - exact (proj1 (proj2 (input_dialog_effects "Enter your name:" true
                           "Alice" (Some "Input Required")
                           (FadeIn (fun index => negb (Nat.eqb index 5))
                              (fun _ => Some []))
                           [Dispatch [KeyReturn]] initial_world eq_refl)
                    eq_refl)).
Defined.

Lemma prompt_callbacks_keep_slot (signal : pyval) (ev : event)
    (st : input_state) :
  prompt_slot_ok signal st ->
  prompt_slot_ok signal (after_callback (input_callback signal true) ev st).
Proof.
  intros [Hentry Hvalue].
  destruct st as [value [text|]]; [|now contradiction Hentry].
  destruct ev; try (split; assumption); cbn; (split; [discriminate|]);
    try (right; left; reflexivity); try exact Hvalue.
  - right; right. destruct (strip_spec text) as (_ & _ & _ & _ & _ & Htrim).
    exists (py_strip text). split; [|exact Htrim].
    now destruct (py_strip text).
  - right; right. destruct (strip_spec text) as (_ & _ & _ & _ & _ & Htrim).
    exists (py_strip text). split; [|exact Htrim].
    now destruct (py_strip text).
Qed.

(** X2.  Whatever the user does and however the wait ends, what a prompt
    returns is a string with no white space at either end (so one that
    stripping again leaves alone); what a confirm returns is a boolean. *)
Theorem input_dialog_returns (message : option string) (default_text : string)
    (fd : fade_in) (sc : script) (w : world) (value : pyval) :
  (fst (prompt message default_text fd sc w) = Return value ->
   exists s, value = VStr s /\ trimmed s /\ py_strip s = s)
  /\ (fst (confirm message fd sc w) = Return value ->
      exists b, value = VBool b).
Proof.
  destruct message as [text|]; [|split; discriminate].
  destruct (str_truthy text) eqn:Htext;
    [|unfold prompt, confirm, _base_input_dialog; cbn [opt_truthy];
      rewrite Htext; split; discriminate].
  destruct (fade_passes fd) eqn:Hfade;
    [|split; unfold prompt, confirm;
      rewrite base_input_dialog_stops by assumption; discriminate].
  split; unfold prompt, confirm.
  - destruct (base_input_dialog_opens text true default_text
                (Some "Input Required") fd sc w Htext Hfade) as [w1 ->].
    py_unfold.
    destruct (wait_loop result_value _ (run_updates fd sc) _ w1)
      as [[st|e|] w2] eqn:Hloop;
      try discriminate.
    apply (wait_loop_invariant result_value _
             (prompt_slot_ok (VObject (next_object w)))) in Hloop;
      [|apply prompt_callbacks_keep_slot
       |split; [discriminate | now left]].
    destruct Hloop as [_ [Hvalue | [Hvalue | (s & Hvalue & Htrim)]]];
      rewrite Hvalue; unfold input_outcome; cbn.
    + discriminate.
    + rewrite Nat.eqb_refl. discriminate.
    + destruct s; intros [= <-]; eexists; repeat split; try apply Htrim;
        now apply strip_fixed.
  - destruct (base_input_dialog_opens text false ""
                (Some "Confirm") fd sc w Htext Hfade) as [w1 ->].
    py_unfold.
    destruct (wait_loop result_value _ (run_updates fd sc) _ w1)
      as [[st|e|] w2];
      try discriminate.
    unfold input_outcome.
    destruct (is_object _ _); intros [= <-]; eexists; reflexivity.
Qed.

(** ** The selection dialog, whatever the user does *)

Section SelectionAlways.

Variable set_iter : gset Z -> list Z.
Variable candidates : list string.
Variables multiple optional : bool.
Variable signal : pyval.

Lemma selection_callback_failures (ev : event) (st : selection_state)
    (e : exn) :
  selection_callback set_iter candidates multiple optional signal ev st
  = inl e ->
  selection_failure e.
Proof.
  assert (Hconfirm : perform_confirmation set_iter candidates optional st
                     = inl e -> selection_failure e).
  { unfold perform_confirmation.
    destruct (_ && _); [intros [= <-]; now left|].
    unfold selected_items.
    destruct (items_at candidates _) as [e'|items] eqn:Hitems; [|discriminate].
    intros [= <-]. apply items_at_raises in Hitems as ->. now right; right. }
  assert (Hmod : forall a, py_mod a (Z.of_nat (length candidates)) = inl e ->
                           selection_failure e).
  { intros a. unfold py_mod. destruct (_ =? _); [|discriminate].
    intros [= <-]. now right; left. }
  destruct ev as [| |index| | | | | | |text]; cbn [selection_callback];
    try discriminate; try exact Hconfirm.
  - destruct (Nat.ltb _ _); discriminate.
  - unfold handle_move_up.
    destruct (py_mod _ _) eqn:Hm; [|discriminate].
    intros [= <-]. now apply (Hmod _ Hm).
  - unfold handle_move_down.
    destruct (py_mod _ _) eqn:Hm; [|discriminate].
    intros [= <-]. now apply (Hmod _ Hm).
Qed.

(** An item the comprehension yields is a candidate, and it yields one item
    per index. *)
Lemma items_at_members (indices : list Z) (items : list string) :
  items_at candidates indices = inr items ->
  length items = length indices
  /\ Forall (fun item => item ∈ candidates) items.
Proof.
  revert items. induction indices as [|index rest IH]; intros items; cbn.
  - intros [= <-]. split; [reflexivity | constructor].
  - unfold py_getitem. destruct (_ || _); [discriminate|].
    destruct (candidates !! _) as [item|] eqn:Hitem; [|discriminate].
    destruct (items_at candidates rest) as [e|more]; [discriminate|].
    intros [= <-]. destruct (IH more eq_refl) as [Hlen Hall].
    split; [cbn; now rewrite Hlen|].
    constructor; [|exact Hall]. now apply list_elem_of_lookup_2 in Hitem.
Qed.

End SelectionAlways.

Lemma selection_reported (set_iter : gset Z -> list Z)
    (candidates : list string) (multiple optional : bool) (signal : pyval)
    (w w' : world) :
  reported (selection_callback set_iter candidates multiple optional signal)
    w w' ->
  exists reports,
    Forall selection_failure reports
    /\ w' = World (next_object w) (trace w ++ map CallbackFailed reports).
Proof.
  intros (reports & -> & Hreports). exists reports. split; [|reflexivity].
  eapply Forall_impl; [exact Hreports|].
  intros e (ev & st & Hfail).
  now apply selection_callback_failures in Hfail.
Qed.

(** X3.  A selection given a string and a list creates one window and one
    sentinel and shows the truncated message and the candidates.  Once the
    window is on the screen it leaves only the reports of callbacks that
    failed, and a callback fails in three ways only: "Selection required.",
    a division by zero, an index out of range.  When the fade-in comes
    through, the window is finished on every path that comes back; when a
    call of the fade-in fails, the dialog raises [TclError] and the window is
    never finished.  Given [None] as message the dialog raises [TypeError]
    after it has created the window, which is then never finished
    either. *)
Theorem selection_effects (set_iter : gset Z -> list Z) (text : string)
    (candidates : list string) (window_title : string)
    (multiple optional : bool) (fd : fade_in) (sc : script) (w : world) :
  let result :=
    selection set_iter (Some text) (Some candidates) window_title
      multiple optional fd sc w in
  let built :=
    trace w
    ++ [WindowCreated window_title;
        MessageShown (_truncate_message text MESSAGE_MAX_LENGTH);
        ItemsListed candidates] in
  (fade_passes fd = true ->
   exists reports,
     Forall selection_failure reports
     /\ snd result
        = World (S (next_object w))
            (built ++ [WindowShown] ++ map CallbackFailed reports
             ++ match fst result with
                | Blocked => []
                | _ => [WindowFinished]
                end))
  /\ (fade_passes fd = false ->
      fst result = Raise TclError
      /\ exists reports,
           Forall selection_failure reports
           /\ (snd result = World (S (next_object w)) built
               \/ snd result
                  = World (S (next_object w))
                      (built ++ [WindowShown] ++ map CallbackFailed reports)))
  /\ selection set_iter None (Some candidates) window_title
       multiple optional fd sc w
     = (Raise TypeError,
        World (S (next_object w)) (trace w ++ [WindowCreated window_title])).
Proof.
  intros result built. subst result built.
  split; [|split; [|reflexivity]]; intros Hfade;
    unfold selection, selection_wait; py_step.
  - rewrite block_process_passes by easy.
    match goal with
    | |- context [wait_loop ?slot ?callback ?run ?st ?w1] =>
        destruct (wait_loop_world slot callback run st w1)
          as (reports & Hworld & Hreports);
        destruct (wait_loop_returns_or_blocks slot callback run st w1)
          as [w2 [[st' Hloop] | Hloop]];
        rewrite Hloop in *; cbn [snd next_object trace shown] in Hworld;
        subst w2
    end;
      exists reports;
      (split;
       [eapply Forall_impl; [exact Hreports|];
        intros e (ev & st'' & Hfail);
        now apply selection_callback_failures in Hfail|]).
    + unfold selection_outcome. cbn [next_object trace].
      destruct (is_object _ _);
        [|destruct (selected_items _ _ _)]; py_step;
        f_equal; now rewrite <- !app_assoc.
    + cbn [fst snd]. f_equal. now rewrite app_nil_r, <- !app_assoc.
  - match goal with
    | |- context [_block_process_until_result ?slot ?cb fd sc ?st ?w1] =>
        destruct (block_process_fails slot cb fd sc st w1 Hfade)
          as (w2 & Hw2 & ->)
    end.
    split; [reflexivity|]. destruct Hw2 as [-> | Hw2].
    + exists []. split; [constructor|]. left. cbn [snd]. f_equal.
      now rewrite <- !app_assoc.
    + apply selection_reported in Hw2 as (reports & Hreports & ->).
      exists reports. split; [exact Hreports|]. right.
      cbn [snd]. unfold shown. cbn [next_object trace]. f_equal.
      now rewrite <- !app_assoc.
Qed.



(** X5.  What a selection returns is [None] or a list, and every item of the
    list is one of the candidates; in single-select mode the list has at
    most one item.  This holds however the fade-in and the wait end. *)
Theorem selection_returns_candidates (set_iter : gset Z -> list Z)
    (text : string) (candidates : list string) (window_title : string)
    (multiple optional : bool) (fd : fade_in) (sc : script) (w : world)
    (value : pyval) :
  lawful_iteration set_iter ->
  fst (selection set_iter (Some text) (Some candidates) window_title
         multiple optional fd sc w)
  = Return value ->
  value = VNone
  \/ exists items,
       value = VList items
       /\ Forall (fun item => item ∈ candidates) items
       /\ (multiple = false -> (length items <= 1)%nat).
Proof.
  intros Hlawful.
  destruct (fade_passes fd) eqn:Hfade;
    [|now rewrite selection_stops by exact Hfade].
  destruct (selection_opens set_iter text candidates window_title multiple
              optional fd sc w Hfade) as [w1 ->].
  py_unfold.
  destruct (wait_loop selection_value _ (run_updates fd sc)
              selection_initial w1)
    as [[st|e'|] w2] eqn:Hloop; try discriminate.
  unfold selection_outcome.
  destruct (is_object _ _); [intros [= <-]; now left|].
  unfold selected_items.
  destruct (items_at candidates (set_iter (selected_indices st)))
    as [e'|items] eqn:Hitems; [discriminate|].
  intros [= <-]. right. exists items.
  apply items_at_members in Hitems as [Hlength Hmembers].
  split; [reflexivity|]. split; [exact Hmembers|].
  intros ->. rewrite Hlength, (Permutation_length (Hlawful _)).
  change (length (elements (selected_indices st)))
    with (size (selected_indices st)).
  apply (wait_loop_invariant selection_value _
           (fun st => (size (selected_indices st) <= 1)%nat)) in Hloop.
  - exact Hloop.
  - intros ev st' Hsize.
    destruct (single_callback_selected set_iter candidates optional
                (VObject (next_object w)) ev st') as [-> | [index ->]];
      [exact Hsize | rewrite size_singleton; lia].
  - cbn. rewrite size_empty. lia.
Qed.

Lemma selection_returns_candidates_witness :
  VList ["b"] = VNone
  \/ exists items,
       VList ["b"] = VList items
       /\ Forall (fun item => item ∈ ["a"; "b"; "c"]) items
       /\ (false = false -> (length items <= 1)%nat).
Proof.
  exact (selection_returns_candidates elements "Pick one" ["a"; "b"; "c"]
           "Selection Required" false false calm
           [Dispatch [ClickItem 0; ClickItem 1]; UpdateRaises TclError]
           initial_world (VList ["b"]) elements_lawful eq_refl).
Defined.

(** ** What the labels show *)

Lemma after_callbacks_cons {S : Type} (callback : event -> S -> exn + S)
    (ev : event) (evs : list event) (st : S) :
  after_callbacks callback (ev :: evs) st
  = after_callbacks callback evs (after_callback callback ev st).
Proof. reflexivity. Qed.

Section Visuals.

Variable set_iter : gset Z -> list Z.
Variable selections : list string.
Variables multiple optional : bool.
Variable selection_color : string.
Variable signal : pyval.

(** The colours depend on the selected indices and on the focus only. *)
Lemma visuals_depend (st st' : selection_state) (count : nat) :
  selected_indices st = selected_indices st' ->
  active_focus_index st = active_focus_index st' ->
  update_selection_visuals selection_color count st
  = update_selection_visuals selection_color count st'.
Proof.
  intros Hselected Hfocus. unfold update_selection_visuals, item_color.
  now rewrite Hselected, Hfocus.
Qed.

Lemma visual_callback_step (ev : event) (vs : visual_state) :
  let vs' :=
    after_callback
      (visual_callback set_iter selections multiple optional selection_color
         signal) ev vs in
  logic vs'
  = after_callback
      (selection_callback set_iter selections multiple optional signal)
      ev (logic vs)
  /\ (label_colors vs
      = update_selection_visuals selection_color (length selections)
          (logic vs) ->
      label_colors vs'
      = update_selection_visuals selection_color (length selections)
          (logic vs')).
Proof.
  unfold after_callback, visual_callback. cbn zeta.
  destruct (selection_callback _ _ _ _ _ ev (logic vs)) as [e|st] eqn:Hcall;
    [split; [reflexivity | auto]|].
  split; [reflexivity|]. cbn [logic label_colors]. intros Hpainted.
  destruct (repaints (length selections) ev) eqn:Hrepaints; [reflexivity|].
  rewrite Hpainted. apply visuals_depend.
  - destruct ev as [| |index| | | | | | |text]; try discriminate Hrepaints;
      cbn [selection_callback] in Hcall;
      try (injection Hcall as <-; reflexivity).
    + unfold perform_confirmation in Hcall.
      destruct (_ && _); [discriminate|].
      destruct (selected_items _ _ _); [discriminate|].
      now injection Hcall as <-.
    + cbn [repaints] in Hrepaints. rewrite Hrepaints in Hcall.
      now injection Hcall as <-.
    + unfold perform_confirmation in Hcall.
      destruct (_ && _); [discriminate|].
      destruct (selected_items _ _ _); [discriminate|].
      now injection Hcall as <-.
  - destruct ev as [| |index| | | | | | |text]; try discriminate Hrepaints;
      cbn [selection_callback] in Hcall;
      try (injection Hcall as <-; reflexivity).
    + unfold perform_confirmation in Hcall.
      destruct (_ && _); [discriminate|].
      destruct (selected_items _ _ _); [discriminate|].
      now injection Hcall as <-.
    + cbn [repaints] in Hrepaints. rewrite Hrepaints in Hcall.
      now injection Hcall as <-.
    + unfold perform_confirmation in Hcall.
      destruct (_ && _); [discriminate|].
      destruct (selected_items _ _ _); [discriminate|].
      now injection Hcall as <-.
Qed.

Lemma visual_events (evs : list event) (vs : visual_state) :
  let vs' :=
    after_callbacks
      (visual_callback set_iter selections multiple optional selection_color
         signal) evs vs in
  label_colors vs
  = update_selection_visuals selection_color (length selections) (logic vs) ->
  logic vs'
  = after_callbacks
      (selection_callback set_iter selections multiple optional signal)
      evs (logic vs)
  /\ label_colors vs'
     = update_selection_visuals selection_color (length selections)
         (logic vs').
Proof.
  cbn zeta. revert vs. induction evs as [|ev evs IH]; intros vs Hpainted.
  - split; [reflexivity | exact Hpainted].
  - rewrite !after_callbacks_cons.
    destruct (visual_callback_step ev vs) as [Hlogic Hkeep].
    destruct (IH _ (Hkeep Hpainted)) as [Hlogic' Hpainted'].
    split; [|exact Hpainted'].
    rewrite Hlogic'. now rewrite Hlogic.
Qed.

(** The colour of the label at a position. *)
Lemma visuals_lookup (count index : nat) (st : selection_state) :
  (index < count)%nat ->
  update_selection_visuals selection_color count st !! index
  = Some (item_color selection_color st (Z.of_nat index)).
Proof.
  intros Hindex. unfold update_selection_visuals.
  assert (Hseq : forall start,
    map (fun i => item_color selection_color st (Z.of_nat i))
      (seq start count) !! index
    = Some (item_color selection_color st (Z.of_nat (start + index)))).
  { revert index Hindex. induction count as [|count IH];
      intros index Hindex start; [lia|].
    destruct index as [|index]; cbn.
    - now rewrite Nat.add_0_r.
    - rewrite IH by lia. do 3 f_equal. lia. }
  apply (Hseq 0%nat).
Qed.

End Visuals.

(** X6.  The labels never go stale: after any sequence of events, each
    label carries the colour that [update_selection_visuals] gives it for the
    current selection and focus, although confirming, cancelling and failed
    moves repaint nothing.  (The dialog's variables are those of the
    callbacks without the painting.) *)
Theorem labels_never_stale (set_iter : gset Z -> list Z)
    (selections : list string) (multiple optional : bool)
    (selection_color : string) (signal : pyval) (evs : list event) :
  let vs :=
    after_callbacks
      (visual_callback set_iter selections multiple optional selection_color
         signal) evs (visual_initial selections selection_color) in
  logic vs
  = after_callbacks
      (selection_callback set_iter selections multiple optional signal)
      evs selection_initial
  /\ label_colors vs
     = update_selection_visuals selection_color (length selections) (logic vs).
Proof.
  apply (visual_events set_iter selections multiple optional selection_color
           signal evs (visual_initial selections selection_color)).
  reflexivity.
Qed.

(** X7.  With a selection colour that is neither of the two others, a label
    shows it exactly when its candidate is selected, shows the focus colour
    exactly when its candidate has the focus and is not selected, and is
    transparent otherwise; so at most one label shows the focus colour, and
    in single-select mode, after any sequence of events, at most one shows
    the selection colour. *)
Theorem label_colors_meaning (set_iter : gset Z -> list Z)
    (selections : list string) (multiple optional : bool)
    (selection_color : string) (signal : pyval) (evs : list event) :
  selection_color <> "#4a4a4a" ->
  selection_color <> "transparent" ->
  let st :=
    after_callbacks
      (selection_callback set_iter selections multiple optional signal)
      evs selection_initial in
  let labels :=
    update_selection_visuals selection_color (length selections) st in
  (forall index, (index < length selections)%nat ->
      (labels !! index = Some selection_color
       <-> Z.of_nat index ∈ selected_indices st)
      /\ (labels !! index = Some "#4a4a4a"
          <-> Z.of_nat index = active_focus_index st
              /\ Z.of_nat index ∉ selected_indices st)
      /\ (labels !! index = Some "transparent"
          <-> Z.of_nat index <> active_focus_index st
              /\ Z.of_nat index ∉ selected_indices st))
  /\ (forall i j, labels !! i = Some "#4a4a4a" ->
                  labels !! j = Some "#4a4a4a" -> i = j)
  /\ (multiple = false ->
      forall i j, labels !! i = Some selection_color ->
                  labels !! j = Some selection_color -> i = j).
Proof.
  intros Hfocus Hclear st labels.
  assert (Hlength : length labels = length selections).
  { unfold labels, update_selection_visuals.
    now rewrite length_map, length_seq. }
  assert (Hmeaning : forall index, (index < length selections)%nat ->
      (labels !! index = Some selection_color
       <-> Z.of_nat index ∈ selected_indices st)
      /\ (labels !! index = Some "#4a4a4a"
          <-> Z.of_nat index = active_focus_index st
              /\ Z.of_nat index ∉ selected_indices st)
      /\ (labels !! index = Some "transparent"
          <-> Z.of_nat index <> active_focus_index st
              /\ Z.of_nat index ∉ selected_indices st)).
  { intros index Hindex. unfold labels.
    rewrite (visuals_lookup selection_color _ _ st Hindex).
    unfold item_color.
    destruct (decide (Z.of_nat index ∈ selected_indices st)) as [Hin|Hout].
    - repeat split; intros; simplify_eq; tauto || congruence.
    - destruct (bool_decide_reflect (Z.of_nat index = active_focus_index st))
        as [Heq|Hne]; repeat split; intros; simplify_eq;
        tauto || congruence. }
  assert (Hbound : forall index color,
            labels !! index = Some color -> (index < length selections)%nat).
  { intros index color Hlabel. rewrite <- Hlength.
    now apply lookup_lt_Some in Hlabel. }
  split; [exact Hmeaning | split].
  - intros i j Hi Hj.
    apply (Hmeaning i (Hbound _ _ Hi)) in Hi as [Hi _].
    apply (Hmeaning j (Hbound _ _ Hj)) in Hj as [Hj _]. lia.
  - intros -> i j Hi Hj.
    apply (Hmeaning i (Hbound _ _ Hi)) in Hi.
    apply (Hmeaning j (Hbound _ _ Hj)) in Hj.
    assert (Hsize : (size (selected_indices st) <= 1)%nat).
    { apply single_events_selected. cbn. rewrite size_empty. lia. }
    assert (Hpos : (0 < size (selected_indices st))%nat).
    { destruct (size (selected_indices st)) eqn:Hzero; [|lia].
      apply size_empty_inv in Hzero. now apply Hzero in Hi. }
    assert (Hij : Z.of_nat i = Z.of_nat j); [|lia].
    apply (size_singleton_inv (selected_indices st)); [lia | assumption..].
Qed.

Lemma label_colors_meaning_witness :
  update_selection_visuals "#3b8ed0" 3
    (after_callbacks
       (selection_callback elements ["a"; "b"; "c"] false false (VObject 0))
       [ClickItem 2; KeyUp] selection_initial) !! 1%nat
  = Some "#4a4a4a"
  <-> Z.of_nat 1
      = active_focus_index
          (after_callbacks
             (selection_callback elements ["a"; "b"; "c"] false false
                (VObject 0))
             [ClickItem 2; KeyUp] selection_initial)
      /\ Z.of_nat 1
         ∉ selected_indices
             (after_callbacks
                (selection_callback elements ["a"; "b"; "c"] false false
                   (VObject 0))
                [ClickItem 2; KeyUp] selection_initial).
Proof.
  exact (proj1 (proj2 (proj1 (label_colors_meaning elements ["a"; "b"; "c"]
                                false false "#3b8ed0" (VObject 0)
                                [ClickItem 2; KeyUp]
                                ltac:(discriminate) ltac:(discriminate))
                         1%nat ltac:(cbn; lia)))).
Defined.

(** ** Moving and toggling, composed *)

Section Navigation.

Variable set_iter : gset Z -> list Z.
Variable candidates : list string.
Variables multiple optional : bool.
Variable signal : pyval.

Lemma downs_add (count : nat) (st : selection_state) :
  candidates <> [] ->
  after_callbacks
    (selection_callback set_iter candidates multiple optional signal)
    (replicate count KeyDown) st
  = match count with
    | O => st
    | S _ =>
        SelectionState (selection_value st) (selected_indices st)
          ((active_focus_index st + Z.of_nat count)
           mod Z.of_nat (length candidates))
    end.
Proof.
  intros Hne.
  assert (Hn : Z.of_nat (length candidates) <> 0)
    by (destruct candidates; [congruence | cbn; lia]).
  revert st. induction count as [|count IH]; intros st; [reflexivity|].
  cbn [replicate]. rewrite after_callbacks_cons, IH.
  unfold after_callback. cbn [selection_callback].
  unfold handle_move_down, py_mod.
  destruct (Z.eqb_spec (Z.of_nat (length candidates)) 0); [contradiction|].
  destruct count as [|count]; cbn [selection_value selected_indices
                                     active_focus_index].
  - reflexivity.
  - f_equal. rewrite Zplus_mod_idemp_l. f_equal. lia.
Qed.

Lemma ups_subtract (count : nat) (st : selection_state) :
  candidates <> [] ->
  after_callbacks
    (selection_callback set_iter candidates multiple optional signal)
    (replicate count KeyUp) st
  = match count with
    | O => st
    | S _ =>
        SelectionState (selection_value st) (selected_indices st)
          ((active_focus_index st - Z.of_nat count)
           mod Z.of_nat (length candidates))
    end.
Proof.
  intros Hne.
  assert (Hn : Z.of_nat (length candidates) <> 0)
    by (destruct candidates; [congruence | cbn; lia]).
  revert st. induction count as [|count IH]; intros st; [reflexivity|].
  cbn [replicate]. rewrite after_callbacks_cons, IH.
  unfold after_callback. cbn [selection_callback].
  unfold handle_move_up, py_mod.
  destruct (Z.eqb_spec (Z.of_nat (length candidates)) 0); [contradiction|].
  destruct count as [|count]; cbn [selection_value selected_indices
                                     active_focus_index].
  - reflexivity.
  - f_equal. rewrite Zminus_mod_idemp_l. f_equal. lia.
Qed.

End Navigation.

(** X8.  With at least one candidate and the focus inside the list, Up undoes
    Down and Down undoes Up, and pressing either key as many times as there
    are candidates brings the dialog back to the state it was in. *)
Theorem focus_round_trips (set_iter : gset Z -> list Z)
    (candidates : list string) (multiple optional : bool) (signal : pyval)
    (st : selection_state) :
  candidates <> [] ->
  in_range candidates (active_focus_index st) ->
  let run :=
    after_callbacks
      (selection_callback set_iter candidates multiple optional signal) in
  run [KeyDown; KeyUp] st = st
  /\ run [KeyUp; KeyDown] st = st
  /\ run (replicate (length candidates) KeyDown) st = st
  /\ run (replicate (length candidates) KeyUp) st = st.
Proof.
  intros Hne [Hlow Hhigh] run. subst run.
  assert (Hn : Z.of_nat (length candidates) <> 0) by lia.
  destruct st as [value selected focus]. cbn [active_focus_index] in *.
  split; [|split; [|split]].
  - cbn. unfold after_callback. cbn [selection_callback].
    unfold handle_move_down, handle_move_up, py_mod.
    destruct (Z.eqb_spec (Z.of_nat (length candidates)) 0); [contradiction|].
    cbn. f_equal. rewrite Zminus_mod_idemp_l.
    replace (focus + 1 - 1) with focus by lia. now apply Z.mod_small.
  - cbn. unfold after_callback. cbn [selection_callback].
    unfold handle_move_down, handle_move_up, py_mod.
    destruct (Z.eqb_spec (Z.of_nat (length candidates)) 0); [contradiction|].
    cbn. f_equal. rewrite Zplus_mod_idemp_l.
    replace (focus - 1 + 1) with focus by lia. now apply Z.mod_small.
  - rewrite downs_add by exact Hne.
    destruct (length candidates) as [|count] eqn:Hlength; [reflexivity|].
    cbn [selection_value selected_indices active_focus_index].
    f_equal. rewrite <- Hlength.
    rewrite <- Zplus_mod_idemp_r, Z_mod_same_full, Z.add_0_r.
    apply Z.mod_small. lia.
  - rewrite ups_subtract by exact Hne.
    destruct (length candidates) as [|count] eqn:Hlength; [reflexivity|].
    cbn [selection_value selected_indices active_focus_index].
    f_equal. rewrite <- Hlength.
    rewrite <- Zminus_mod_idemp_r, Z_mod_same_full, Z.sub_0_r.
    apply Z.mod_small. lia.
Qed.

Lemma focus_round_trips_witness :
  after_callbacks
    (selection_callback elements ["a"; "b"; "c"] true false (VObject 0))
    (replicate 3 KeyDown) (SelectionState VNone {[2]} 1)
  = SelectionState VNone {[2]} 1.
Proof.
  refine (proj1 (proj2 (proj2
            (focus_round_trips elements ["a"; "b"; "c"] true false (VObject 0)
               (SelectionState VNone {[2]} 1) _ _)))).
  - discriminate.
  - unfold in_range. cbn. lia.
Defined.

(** X9.  In multi-select mode toggling an item twice restores the selected
    set, and toggles of two items give the same set in either order.  In
    single-select mode toggling an item a second time changes nothing.  A
    toggle always moves the focus to its item. *)
Theorem toggle_algebra (a b : Z) (st : selection_state) :
  selected_indices
    (handle_toggle_selection true a (handle_toggle_selection true a st))
  = selected_indices st
  /\ selected_indices
       (handle_toggle_selection true a (handle_toggle_selection true b st))
     = selected_indices
         (handle_toggle_selection true b (handle_toggle_selection true a st))
  /\ handle_toggle_selection false a (handle_toggle_selection false a st)
     = handle_toggle_selection false a st
  /\ (forall multiple,
         active_focus_index (handle_toggle_selection multiple a st) = a).
Proof.
  split; [|split; [|split]].
  - rewrite !multi_toggle_flips. apply set_eq. intros x.
    repeat case_decide;
      repeat rewrite ?elem_of_difference, ?elem_of_union, ?elem_of_singleton
        in *;
      destruct (decide (x = a)); subst; intuition congruence.
  - rewrite !multi_toggle_flips. apply set_eq. intros x.
    repeat case_decide;
      repeat rewrite ?elem_of_difference, ?elem_of_union, ?elem_of_singleton
        in *;
      destruct (decide (x = a)), (decide (x = b)); subst;
      intuition congruence.
  - reflexivity.
  - intros multiple. reflexivity.
Qed.

(** ** The alert *)

Lemma alert_callback_succeeds (ev : event) (value : pyval) (e : exn) :
  alert_callback ev value <> inl e.
Proof. destruct ev; discriminate. Qed.

Lemma alert_wait_world (sc : script) (value : pyval) (w : world) :
  snd (wait_loop (fun v => v) alert_callback sc value w) = w.
Proof.
  destruct (wait_loop_world (fun v => v) alert_callback sc value w)
    as (reports & -> & Hreports).
  destruct reports as [|e reports].
  - cbn. rewrite app_nil_r. now destruct w.
  - apply Forall_cons in Hreports as [(ev & value' & Hfail) _].
    now apply alert_callback_succeeds in Hfail.
Qed.

Lemma alert_reported (w w' : world) :
  reported alert_callback w w' -> w' = w.
Proof.
  intros ([|e reports] & -> & Hreports).
  - cbn. rewrite app_nil_r. now destruct w.
  - apply Forall_cons in Hreports as [(ev & value & Hfail) _].
    now apply alert_callback_succeeds in Hfail.
Qed.

(** An alert whose fade-in comes through is the wait, then the
    acknowledgement. *)
Lemma alert_run (kind : AlertType) (title : option string) (text : string)
    (winfo_exists : exn + bool) (destroy : exn + unit) (fd : fade_in)
    (sc : script) (w : world) :
  fade_passes fd = true ->
  alert kind title (Some text) winfo_exists destroy fd sc w
  = match wait_loop (fun v => v) alert_callback (run_updates fd sc) VNone
            (alert_shown kind title text w) with
    | (Blocked, _) => (Blocked, alert_shown kind title text w)
    | _ => alert_acknowledged kind title text winfo_exists destroy w
    end.
Proof.
  intros Hfade. unfold alert, _base_alert_dialog. py_step.
  rewrite block_process_passes by easy.
  assert (Hshown :
    shown
      (World (next_object w)
         ((trace w ++ [WindowCreated (str_or title (kind_title kind))])
          ++ [MessageShown (_truncate_message text MESSAGE_MAX_LENGTH)]))
    = alert_shown kind title text w).
  { unfold alert_shown, shown. cbn [next_object trace]. f_equal.
    now rewrite <- !app_assoc. }
  rewrite Hshown.
  pose proof (alert_wait_world (run_updates fd sc) VNone
                (alert_shown kind title text w))
    as Hworld.
  destruct (wait_loop_returns_or_blocks (fun v => v) alert_callback
              (run_updates fd sc) VNone
              (alert_shown kind title text w)) as [w2 [[value Hloop] | Hloop]];
    rewrite Hloop in *; cbn [snd] in Hworld; subst w2; [|reflexivity].
  unfold alert_acknowledged.
  destruct winfo_exists as [e|[|]]; [| destruct destroy as [e|[]] |]; cbn;
    f_equal; f_equal; now rewrite <- ?app_assoc.
Qed.

Lemma idle_keeps_alert_waiting (ev : event) (value : pyval) :
  negb (alert_dismisses ev) = true -> is_none value = true ->
  is_none (after_callback alert_callback ev value) = true.
Proof. destruct ev; cbn; intros; congruence. Qed.

(** X10.  An alert whose fade-in comes through has one way to end.  The OK
    button, Return, Escape and the window's close button all acknowledge it,
    and so does a wait that is broken off: the window is finished, destroyed
    once more if the toolkit says it still exists, and the call returns
    [None], or raises what the toolkit raised at one of these two last
    calls.  Any script gives that ending or leaves the alert on the screen;
    an alert prints and reports nothing.  When a call of the fade-in fails,
    the alert raises [TclError] and its window is never finished. *)
Theorem alert_outcomes (kind : AlertType) (title : option string)
    (text : string) (winfo_exists : exn + bool) (destroy : exn + unit)
    (fd : fade_in) (sc : script) (w : world) :
  let result := alert kind title (Some text) winfo_exists destroy fd sc w in
  let acknowledged :=
    alert_acknowledged kind title text winfo_exists destroy w in
  let idle := forallb (forallb (fun ev => negb (alert_dismisses ev))) in
  (fade_passes fd = true ->
   (result = (Blocked, alert_shown kind title text w)
    \/ result = acknowledged)
   /\ (forall before evs last rest,
          run_updates fd sc = ending_script before evs last rest ->
          idle before = true ->
          alert_dismisses last = true ->
          result = acknowledged)
   /\ (forall before broken rest,
          run_updates fd sc
          = map Dispatch before ++ UpdateRaises broken :: rest ->
          idle before = true ->
          result = acknowledged))
  /\ (fade_passes fd = false ->
      fst result = Raise TclError
      /\ exists appeared,
           (appeared = [] \/ appeared = [WindowShown])
           /\ snd result
              = World (next_object w)
                  (trace w
                   ++ [WindowCreated (str_or title (kind_title kind));
                       MessageShown
                         (_truncate_message text MESSAGE_MAX_LENGTH)]
                   ++ appeared)).
Proof.
  intros result acknowledged idle. subst result acknowledged idle.
  split; intros Hfade.
  - rewrite alert_run by exact Hfade. split; [|split].
    + destruct (wait_loop _ _ (run_updates fd sc) VNone _)
        as [[value|e|] w2]; auto.
    + intros before evs last rest Hrun Hidle Hlast. rewrite Hrun.
      destruct (wait_loop_ends (fun v => v) alert_callback
                  (fun ev => negb (alert_dismisses ev))
                  idle_keeps_alert_waiting before (evs ++ [last]) rest VNone
                  (alert_shown kind title text w) Hidle eq_refl)
        as [w2 Hloop].
      * rewrite app_assoc, after_callbacks_snoc.
        destruct last; try discriminate Hlast; reflexivity.
      * unfold ending_script. now rewrite Hloop.
    + intros before broken rest Hrun Hidle. rewrite Hrun.
      destruct (wait_loop_idle (fun v => v) alert_callback
                  (fun ev => negb (alert_dismisses ev))
                  idle_keeps_alert_waiting before
                  (UpdateRaises broken :: rest)
                  VNone (alert_shown kind title text w) Hidle eq_refl)
        as [Hslot [w2 Hloop]].
      rewrite Hloop. cbn [wait_loop]. now rewrite Hslot.
  - unfold alert, _base_alert_dialog. py_step.
    match goal with
    | |- context [_block_process_until_result ?slot ?cb fd sc ?st ?w1] =>
        destruct (block_process_fails slot cb fd sc st w1 Hfade)
          as (w2 & Hw2 & ->)
    end.
    split; [reflexivity|]. destruct Hw2 as [-> | Hw2].
    + exists []. split; [now left|]. cbn [snd]. f_equal.
      now rewrite app_nil_r, <- !app_assoc.
    + apply alert_reported in Hw2 as ->. exists [WindowShown].
      split; [now right|]. cbn [snd]. unfold shown.
      cbn [next_object trace]. f_equal. now rewrite <- !app_assoc.
Qed.

(** ** More on the folder picker *)

(** X11.  An optional argument given as the empty string is left out of the
    command line like one that is [None], whatever the other argument is, so
    the picker behaves the same.  The command line starts with the
    executable, has the directory, when one is given, as its second word,
    ends with the multi-folder flag, and has three words and one more for
    each optional argument that is given. *)
Theorem picker_blank_arguments (PACKAGE_DIR : string)
    (run_process : list string -> process_result)
    (json_loads : string -> exn + json)
    (error_text : list string -> Z -> string)
    (initialdir title : option string)
    (return_full_paths multi_folder : bool) :
  let command :=
    picker_command PACKAGE_DIR initialdir return_full_paths title
      multi_folder in
  let count (x : option string) := if opt_truthy x then 1%nat else 0%nat in
  command
  = picker_command PACKAGE_DIR (given initialdir) return_full_paths
      (given title) multi_folder
  /\ folder_picker PACKAGE_DIR run_process json_loads error_text
       initialdir return_full_paths title multi_folder
     = folder_picker PACKAGE_DIR run_process json_loads error_text
         (given initialdir) return_full_paths (given title) multi_folder
  /\ command !! 0%nat = Some (EXE_PATH PACKAGE_DIR)
  /\ (forall path,
         initialdir = Some path -> path <> "" ->
         command !! 1%nat = Some ("--default_path=" +:+ path))
  /\ command !! (1 + count initialdir)%nat
     = Some ("--return_full_paths=" +:+ bool_lower return_full_paths)
  /\ (forall text,
         title = Some text -> text <> "" ->
         command !! (2 + count initialdir)%nat
         = Some ("--title=" +:+ text))
  /\ last command = Some ("--multi-folder=" +:+ bool_lower multi_folder)
  /\ length command = (3 + count initialdir + count title)%nat.
Proof.
  intros command count.
  assert (Hgiven : forall x, opt_truthy (given x) = opt_truthy x
                             /\ (opt_truthy x = true -> given x = x)).
  { intros [[|c x]|]; split; try reflexivity; discriminate. }
  assert (Hcommand :
    command
    = picker_command PACKAGE_DIR (given initialdir) return_full_paths
        (given title) multi_folder).
  { unfold command, picker_command.
    destruct (Hgiven initialdir) as [-> Hdir], (Hgiven title) as [-> Htitle].
    destruct (opt_truthy initialdir), (opt_truthy title);
      rewrite ?Hdir, ?Htitle by reflexivity; reflexivity. }
  split; [exact Hcommand|].
  split; [unfold folder_picker; fold command; now rewrite <- Hcommand|].
  unfold command, picker_command, count.
  repeat split.
  - intros path -> Hpath. destruct path; [congruence | reflexivity].
  - destruct (opt_truthy initialdir); reflexivity.
  - intros text -> Htext. destruct text; [congruence|].
    destruct (opt_truthy initialdir); reflexivity.
  - destruct (opt_truthy initialdir), (opt_truthy title); reflexivity.
  - destruct (opt_truthy initialdir), (opt_truthy title); reflexivity.
Qed.

(** X12.  The picker swallows three exceptions and no other: any other
    exception, raised when the process is started or by the decoder, leaves
    the call as it is, and nothing is printed for it. *)
Theorem folder_picker_lets_others_through (PACKAGE_DIR : string)
    (run_process : list string -> process_result)
    (json_loads : string -> exn + json)
    (error_text : list string -> Z -> string)
    (initialdir : option string) (return_full_paths : bool)
    (title : option string) (multi_folder : bool) (w : world) (e : exn) :
  picker_catches e = false ->
  let command :=
    picker_command PACKAGE_DIR initialdir return_full_paths title
      multi_folder in
  let result :=
    folder_picker PACKAGE_DIR run_process json_loads error_text
      initialdir return_full_paths title multi_folder w in
  (run_process command = SpawnFailed e -> result = (Raise e, w))
  /\ (forall stdout stderr,
         run_process command = Exited 0 stdout stderr ->
         py_strip stdout <> "" ->
         json_loads (py_strip stdout) = inl e ->
         fst result = Raise e
         /\ (stderr = "" -> snd result = w)).
Proof.
  intros Hcatch command result. split.
  - intros Hrun. unfold result, folder_picker, try_except, subprocess_run.
    fold command. rewrite Hrun. py_step.
    destruct e; try reflexivity; discriminate Hcatch.
  - intros stdout stderr Hrun Hne Hloads.
    unfold result, folder_picker, try_except, subprocess_run.
    fold command. rewrite Hrun. cbn [Z.eqb]. py_step.
    destruct (py_strip stdout) as [|c s] eqn:Hstrip; [congruence|].
    cbn [str_truthy negb]. rewrite Hloads.
    destruct stderr as [|c' s']; cbn [str_truthy]; py_step;
      (split; [|intros Hempty; try discriminate Hempty]);
      destruct e; try reflexivity; try (now destruct w);
      discriminate Hcatch.
Qed.

Lemma folder_picker_lets_others_through_witness :
  folder_picker "C:/pkg/" (fun _ => SpawnFailed (OSError "Access is denied"))
    sample_loads sample_error_text None true None true initial_world
  = (Raise (OSError "Access is denied"), initial_world).
Proof.
  exact (proj1 (folder_picker_lets_others_through "C:/pkg/"
                  (fun _ => SpawnFailed (OSError "Access is denied"))
                  sample_loads sample_error_text None true None true
                  initial_world (OSError "Access is denied") eq_refl)
           eq_refl).
Defined.

(** X13.  After a clean exit the picker's answer depends on the trimmed
    output alone: white space around the output and anything on the error
    stream change nothing in what is returned. *)
Theorem folder_picker_reads_trimmed_output (PACKAGE_DIR : string)
    (run1 run2 : list string -> process_result)
    (json_loads : string -> exn + json)
    (error_text : list string -> Z -> string)
    (initialdir : option string) (return_full_paths : bool)
    (title : option string) (multi_folder : bool) (w1 w2 : world)
    (stdout1 stderr1 stdout2 stderr2 : string) :
  let command :=
    picker_command PACKAGE_DIR initialdir return_full_paths title
      multi_folder in
  run1 command = Exited 0 stdout1 stderr1 ->
  run2 command = Exited 0 stdout2 stderr2 ->
  py_strip stdout1 = py_strip stdout2 ->
  fst (folder_picker PACKAGE_DIR run1 json_loads error_text
         initialdir return_full_paths title multi_folder w1)
  = fst (folder_picker PACKAGE_DIR run2 json_loads error_text
           initialdir return_full_paths title multi_folder w2).
Proof.
  intros command Hrun1 Hrun2 Hsame.
  destruct (picker_after_exit PACKAGE_DIR run1 json_loads error_text
              initialdir return_full_paths title multi_folder
              stdout1 stderr1 w1 Hrun1) as [w1' ->].
  destruct (picker_after_exit PACKAGE_DIR run2 json_loads error_text
              initialdir return_full_paths title multi_folder
              stdout2 stderr2 w2 Hrun2) as [w2' ->].
  rewrite Hsame.
  destruct (str_truthy (py_strip stdout2)); [|reflexivity].
  destruct (json_loads (py_strip stdout2)) as [[]|[]]; reflexivity.
Qed.

Lemma folder_picker_reads_trimmed_output_witness :
  fst (folder_picker "C:/pkg/" (fun _ => Exited 0 "  [1, 2]  " "warning")
         sample_loads sample_error_text None true None true initial_world)
  = fst (folder_picker "C:/pkg/" (fun _ => Exited 0 "[1, 2]" "")
           sample_loads sample_error_text None true None true initial_world).
Proof.
  exact (folder_picker_reads_trimmed_output "C:/pkg/"
           (fun _ => Exited 0 "  [1, 2]  " "warning")
           (fun _ => Exited 0 "[1, 2]" "")
           sample_loads sample_error_text None true None true
           initial_world initial_world "  [1, 2]  " "warning" "[1, 2]" ""
           eq_refl eq_refl eq_refl).
Defined.

(** ** The file picker *)

(** The file picker, call by call. *)
Lemma file_picker_run (basename : string -> string)
    (exception_text : exn -> string) (return_full_paths : bool)
    (preferred_icon_path : option string) (root icon withdraw : exn + unit)
    (askopenfilenames : exn + list string) (destroy : exn + unit)
    (w : world) :
  let warning :=
    match icon with
    | inl error =>
        if opt_truthy preferred_icon_path
        then [Printed ("Warning: Could not set icon from path '"
                       +:+ default "" preferred_icon_path
                       +:+ "'. Error: " +:+ exception_text error)]
        else []
    | inr _ => []
    end in
  let opened :=
    World (next_object w) (trace w ++ WindowCreated "tk" :: warning) in
  file_picker basename exception_text return_full_paths preferred_icon_path
    root icon withdraw askopenfilenames destroy w
  = match root, withdraw, askopenfilenames with
    | inl e, _, _ => (Raise e, w)
    | inr _, inl e, _ => (Raise e, opened)
    | inr _, inr _, inl e => (Raise e, opened)
    | inr _, inr _, inr chosen =>
        (Return (if return_full_paths then chosen else map basename chosen),
         World (next_object w)
           (trace w
            ++ WindowCreated "tk"
            :: warning ++ match destroy with
                          | inl _ => []
                          | inr _ => [WindowDestroyed]
                          end))
    end.
Proof.
  unfold file_picker, try_except.
  destruct root as [e|[]]; [reflexivity|]. py_step.
  destruct (opt_truthy preferred_icon_path), icon as [error|[]]; py_step;
    (destruct withdraw as [e|[]];
     [now rewrite <- ?app_assoc|]); py_step;
    (destruct askopenfilenames as [e|chosen];
     [now rewrite <- ?app_assoc|]); py_step;
    destruct destroy as [e|[]]; py_step;
    destruct chosen, return_full_paths; cbn;
    now rewrite <- ?app_assoc, ?app_nil_r.
Qed.

(** X14.  What the file picker raises comes from one of the three calls it
    does not guard ([Tk()], [withdraw()], the native dialog), and its root
    window is then never destroyed.  What it returns is what the user chose,
    each path whole or reduced to its base name, in the order chosen (so the
    empty list when the user cancels).  Neither the icon nor the final
    [destroy()] has a say in what is returned or raised: an icon that cannot
    be set costs one printed warning, a root window that cannot be destroyed
    costs nothing. *)
Theorem file_picker_outcome (basename : string -> string)
    (exception_text : exn -> string) (return_full_paths : bool)
    (preferred_icon_path : option string) (root icon withdraw : exn + unit)
    (askopenfilenames : exn + list string) (destroy : exn + unit)
    (w : world) :
  let result :=
    file_picker basename exception_text return_full_paths
      preferred_icon_path root icon withdraw askopenfilenames destroy w in
  exists effects,
    snd result = World (next_object w) (trace w ++ effects)
    /\ (forall e,
           fst result = Raise e ->
           (root = inl e \/ withdraw = inl e \/ askopenfilenames = inl e)
           /\ (WindowDestroyed ∉ effects)
           /\ (root = inr tt -> (WindowCreated "tk" ∈ effects)))
    /\ (forall paths,
           fst result = Return paths ->
           exists chosen,
             askopenfilenames = inr chosen
             /\ paths
                = (if return_full_paths then chosen else map basename chosen)
             /\ ((WindowDestroyed ∈ effects) <-> destroy = inr tt))
    /\ fst result <> Blocked
    /\ (forall path icon' destroy' w',
           fst (file_picker basename exception_text return_full_paths
                  path root icon' withdraw askopenfilenames destroy' w')
           = fst result)
    /\ (forall line,
           Printed line ∈ effects ->
           opt_truthy preferred_icon_path = true
           /\ exists error,
                icon = inl error
                /\ line = "Warning: Could not set icon from path '"
                          +:+ default "" preferred_icon_path
                          +:+ "'. Error: " +:+ exception_text error).
Proof.
  intros result. subst result.
  assert (Hvalue : forall path icon' destroy' w',
    fst (file_picker basename exception_text return_full_paths
           path root icon' withdraw askopenfilenames destroy' w')
    = match root, withdraw, askopenfilenames with
      | inl e, _, _ => Raise e
      | inr _, inl e, _ => Raise e
      | inr _, inr _, inl e => Raise e
      | inr _, inr _, inr chosen =>
          Return (if return_full_paths then chosen else map basename chosen)
      end).
  { intros path icon' destroy' w'. rewrite file_picker_run.
    destruct root as [e|[]], withdraw as [e'|[]],
      askopenfilenames as [e''|chosen]; reflexivity. }
  rewrite file_picker_run.
  set (warn := fun error =>
                 "Warning: Could not set icon from path '"
                 +:+ default "" preferred_icon_path
                 +:+ "'. Error: " +:+ exception_text error).
  destruct root as [e0|[]].
  { exists []. split; [rewrite app_nil_r; now destruct w|].
    split; [intros e [= <-]; split; [now left|];
            split; [apply not_elem_of_nil | discriminate]|].
    split; [discriminate|]. split; [discriminate|].
    split; [intros; now rewrite Hvalue|].
    intros line Hin. now apply elem_of_nil in Hin. }
  assert (Hwarning : forall line warning,
    warning
    = match icon with
      | inl error =>
          if opt_truthy preferred_icon_path
          then [Printed (warn error)]
          else []
      | inr _ => []
      end ->
    Printed line ∈ warning ->
    opt_truthy preferred_icon_path = true
    /\ exists error, icon = inl error /\ line = warn error).
  { intros line warning ->. destruct icon as [error|[]];
      [|intros Hin; now apply elem_of_nil in Hin].
    destruct (opt_truthy preferred_icon_path);
      [|intros Hin; now apply elem_of_nil in Hin].
    intros Hin. apply list_elem_of_singleton in Hin. injection Hin as ->.
    split; [reflexivity|]. now exists error. }
  assert (Hclean : forall warning,
    warning
    = match icon with
      | inl error =>
          if opt_truthy preferred_icon_path
          then [Printed (warn error)]
          else []
      | inr _ => []
      end ->
    WindowDestroyed ∉ warning).
  { intros warning ->. destruct icon as [error|[]];
      [|apply not_elem_of_nil].
    destruct (opt_truthy preferred_icon_path); [|apply not_elem_of_nil].
    intros Hin. apply list_elem_of_singleton in Hin. discriminate. }
  change (match icon with
          | inl error =>
              if opt_truthy preferred_icon_path
              then [Printed ("Warning: Could not set icon from path '"
                             +:+ default "" preferred_icon_path
                             +:+ "'. Error: " +:+ exception_text error)]
              else []
          | inr _ => []
          end)
    with (match icon with
          | inl error =>
              if opt_truthy preferred_icon_path
              then [Printed (warn error)]
              else []
          | inr _ => []
          end).
  set (warning := match icon with
                  | inl error =>
                      if opt_truthy preferred_icon_path
                      then [Printed (warn error)]
                      else []
                  | inr _ => []
                  end) in *.
  specialize (Hclean warning eq_refl).
  assert (Hprinted : forall line,
    Printed line ∈ warning ->
    opt_truthy preferred_icon_path = true
    /\ exists error, icon = inl error /\ line = warn error)
    by (intros line; now apply Hwarning).
  clear Hwarning.
  assert (Hstopped :
    (WindowDestroyed ∉ WindowCreated "tk" :: warning)
    /\ (WindowCreated "tk" ∈ WindowCreated "tk" :: warning)
    /\ forall line,
         Printed line ∈ WindowCreated "tk" :: warning ->
         Printed line ∈ warning).
  { split; [intros Hin; apply elem_of_cons in Hin as [Hin | Hin];
            [discriminate | now apply Hclean]|].
    split; [apply elem_of_cons; now left|].
    intros line Hin. apply elem_of_cons in Hin as [Hin | Hin];
      [discriminate | exact Hin]. }
  destruct withdraw as [e0|[]].
  { destruct Hstopped as (Hkept & Hmade & Hlines).
    exists (WindowCreated "tk" :: warning). cbn [fst snd].
    split; [reflexivity|].
    split; [intros e [= <-]; split; [right; now left|]; now split|].
    split; [discriminate|]. split; [discriminate|].
    split; [intros; now rewrite Hvalue|].
    intros line Hin. now apply Hprinted, Hlines. }
  destruct askopenfilenames as [e0|chosen].
  { destruct Hstopped as (Hkept & Hmade & Hlines).
    exists (WindowCreated "tk" :: warning). cbn [fst snd].
    split; [reflexivity|].
    split; [intros e [= <-]; split; [right; now right|]; now split|].
    split; [discriminate|]. split; [discriminate|].
    split; [intros; now rewrite Hvalue|].
    intros line Hin. now apply Hprinted, Hlines. }
  eexists. cbn [fst snd]. split; [reflexivity|].
  split; [discriminate|].
  split.
  { intros paths [= <-]. exists chosen. split; [reflexivity|].
    split; [reflexivity|].
    rewrite elem_of_cons, elem_of_app.
    destruct destroy as [e|[]]; split; try discriminate; try reflexivity.
    - intros [Hin | [Hin | Hin]]; [discriminate | now apply Hclean in Hin|].
      now apply elem_of_nil in Hin.
    - intros _. right; right. apply elem_of_cons. now left. }
  split; [discriminate|].
  split; [intros; now rewrite Hvalue|].
  intros line Hin. apply Hprinted.
  apply elem_of_cons in Hin as [Hin | Hin]; [discriminate|].
  apply elem_of_app in Hin as [Hin | Hin]; [exact Hin|].
  destruct destroy as [e|[]]; [now apply elem_of_nil in Hin|].
  apply list_elem_of_singleton in Hin. discriminate.
Qed.

(** ** Centring the window *)

(** An integer below [2 ^ 53] in size has at most 53 bits. *)
Lemma bits_small (m : Z) : Z.abs m < 2 ^ 53 -> bits m <= 53.
Proof.
  intros Hm. unfold bits. destruct (Z.eqb_spec m 0) as [_|Hne]; [lia|].
  assert (Hlog : Z.log2 (Z.abs m) < 53) by (apply Z.log2_lt_pow2; lia).
  lia.
Qed.

(** A half of such an integer is a double as it stands. *)
Lemma round53_exact (m : Z) :
  Z.abs m < 2 ^ 53 ->
  round53 (Dyadic m (-1)) = Finite (Dyadic m (-1)).
Proof.
  intros Hm. pose proof (bits_small m Hm) as Hbits.
  unfold round53, too_large. cbn [mantissa exponent].
  destruct (Z.ltb_spec 0 (bits m - 53)) as [?|_]; [lia|].
  cbn [mantissa exponent].
  destruct (Z.ltb_spec 1024 (bits m + -1)) as [?|_]; [lia|].
  now rewrite andb_false_r.
Qed.

Lemma center_offset_quot (screen dialog : Z) :
  Z.abs screen < 2 ^ 53 -> Z.abs dialog < 2 ^ 53 ->
  Z.abs (screen - dialog) < 2 ^ 53 ->
  center_offset screen dialog = inr (Z.quot (screen - dialog) 2).
Proof.
  intros Hscreen Hdialog Hfree. unfold center_offset, py_half.
  rewrite !round53_exact by assumption.
  unfold float_sub. cbn [mantissa exponent].
  change (Z.min (-1) (-1)) with (-1). change (-1 - -1) with 0.
  change (2 ^ 0) with 1. rewrite !Z.mul_1_r.
  now rewrite round53_exact by assumption.
Qed.

(** X15.  In the floating-point arithmetic of the source, and for sizes
    below [2 ^ 53], the offset that centres a window is exactly half the
    free space, rounded towards zero.  A window that fits the screen is
    placed inside it, with margins on the two sides that differ by one pixel
    at most, the smaller one first; a window larger than the screen gets an
    offset that is not positive and sticks out on both sides, again evenly
    to one pixel.  Past [2 ^ 53] the halves are rounded and the offset can
    be off. *)
Theorem center_offset_margins :
  (forall screen dialog,
      0 <= screen < 2 ^ 53 -> 0 <= dialog < 2 ^ 53 ->
      let offset := Z.quot (screen - dialog) 2 in
      let opposite := screen - dialog - offset in
      center_offset screen dialog = inr offset
      /\ (dialog <= screen ->
          0 <= offset <= opposite /\ opposite - offset <= 1)
      /\ (screen < dialog ->
          opposite <= offset <= 0 /\ offset - opposite <= 1))
  /\ center_offset (2 ^ 53 + 3) 0 = inr (2 ^ 52 + 2)
  /\ Z.quot (2 ^ 53 + 3 - 0) 2 = 2 ^ 52 + 1.
Proof.
  split; [|split; vm_compute; reflexivity].
  intros screen dialog Hscreen Hdialog offset opposite.
  subst offset opposite.
  split; [apply center_offset_quot; lia|].
  pose proof (Z.quot_rem' (screen - dialog) 2) as Hsplit.
  split; intros Hfit.
  - pose proof (Z.rem_bound_pos (screen - dialog) 2 ltac:(lia) ltac:(lia)).
    lia.
  - pose proof (Z.rem_bound_pos_neg (screen - dialog) 2 ltac:(lia) ltac:(lia)).
    lia.
Qed.

(** ** What the callers can count on *)

(** X16.  None of the three exceptions the picker has a clause for ever
    leaves it, wherever it was raised: when the process is started, by a
    non-zero exit, or by the decoder. *)
Theorem folder_picker_keeps_caught (PACKAGE_DIR : string)
    (run_process : list string -> process_result)
    (json_loads : string -> exn + json)
    (error_text : list string -> Z -> string)
    (initialdir : option string) (return_full_paths : bool)
    (title : option string) (multi_folder : bool) (w : world) (e : exn) :
  fst (folder_picker PACKAGE_DIR run_process json_loads error_text
         initialdir return_full_paths title multi_folder w)
  = Raise e ->
  picker_catches e = false.
Proof.
  unfold folder_picker, try_except, subprocess_run.
  destruct (run_process _) as [e'|returncode stdout stderr].
  - py_step. destruct e'; cbn; intros [= <-]; reflexivity.
  - destruct (returncode =? 0); [|cbn; discriminate].
    py_step.
    destruct (str_truthy stderr); py_step;
      (destruct (str_truthy (py_strip stdout)); cbn [negb];
       [|cbn; discriminate]);
      (destruct (json_loads (py_strip stdout)) as [e'|value]; py_step;
       [destruct e'; cbn; intros [= <-]; reflexivity | discriminate]).
Qed.

Lemma folder_picker_keeps_caught_witness :
  picker_catches (OSError "Access is denied") = false.
Proof.
  exact (folder_picker_keeps_caught "C:/pkg/"
           (fun _ => SpawnFailed (OSError "Access is denied"))
           sample_loads sample_error_text None true None true
           initial_world (OSError "Access is denied") eq_refl).
Defined.

(** ** The example *)

Section Monotone.

Lemma extends_refl (w : world) : extends w w.
Proof. exists []. now rewrite app_nil_r. Qed.

Lemma extends_trans (w1 w2 w3 : world) :
  extends w1 w2 -> extends w2 w3 -> extends w1 w3.
Proof.
  intros [effects Heffects] [more Hmore]. exists (effects ++ more).
  now rewrite Hmore, Heffects, app_assoc.
Qed.

Lemma monotone_ret {A : Type} (a : A) : monotone (mret a).
Proof. intros w. apply extends_refl. Qed.

Lemma monotone_raise {A : Type} (e : exn) : monotone (@raise A e).
Proof. intros w. apply extends_refl. Qed.

Lemma monotone_emit (e : effect) : monotone (emit e).
Proof. intros w. now exists [e]. Qed.

Lemma monotone_lift {A : Type} (r : exn + A) : monotone (lift r).
Proof. destruct r; [apply monotone_raise | apply monotone_ret]. Qed.

Lemma monotone_bind {A B : Type} (m : py A) (k : A -> py B) :
  monotone m -> (forall a, monotone (k a)) -> monotone (m ≫= k).
Proof.
  intros Hm Hk w. specialize (Hm w). py_unfold.
  destruct (m w) as [[a|e|] w1]; cbn [snd] in *; try exact Hm.
  now apply (extends_trans _ w1), Hk.
Qed.

Lemma monotone_try_except {A : Type} (body : py A)
    (handler : exn -> option (py A)) :
  monotone body ->
  (forall e h, handler e = Some h -> monotone h) ->
  monotone (try_except body handler).
Proof.
  intros Hbody Hhandler w. specialize (Hbody w). unfold try_except.
  destruct (body w) as [[a|e|] w1]; cbn [snd] in *; try exact Hbody.
  destruct (handler e) as [h|] eqn:Hh; [|exact Hbody].
  now apply (extends_trans _ w1), (Hhandler e h Hh).
Qed.

Lemma monotone_wait {S : Type} (slot : S -> pyval)
    (callback : event -> S -> exn + S) (fd : fade_in) (sc : script)
    (st : S) :
  monotone (_block_process_until_result slot callback fd sc st).
Proof.
  unfold _block_process_until_result. apply monotone_bind.
  - intros w. destruct (fade_passes fd) eqn:Hfade.
    + rewrite force_foreground_passes by exact Hfade.
      apply (extends_trans _ (shown w)); [now exists [WindowShown]|].
      apply dispatch_extends.
    + destruct (force_foreground_fails callback fd st w Hfade)
        as (w' & [-> | Hw'] & ->); [apply extends_refl|].
      apply (extends_trans _ (shown w)); [now exists [WindowShown]|].
      now apply (reported_extends callback).
  - intros st' w. apply wait_loop_extends.
Qed.

Lemma monotone_alert (kind : AlertType) (title message : option string)
    (winfo_exists : exn + bool) (destroy : exn + unit) (fd : fade_in)
    (sc : script) :
  monotone (alert kind title message winfo_exists destroy fd sc).
Proof.
  unfold alert, _base_alert_dialog, _safe_finish.
  destruct message as [text|]; [|apply monotone_raise].
  apply monotone_bind; [apply monotone_emit | intros _].
  apply monotone_bind; [apply monotone_emit | intros _].
  apply monotone_bind; [apply monotone_wait | intros value].
  apply monotone_bind; [apply monotone_emit | intros _].
  apply monotone_bind; [apply monotone_lift | intros still_there].
  apply monotone_bind; [|intros _; apply monotone_ret].
  destruct still_there; [|apply monotone_ret].
  apply monotone_bind; [apply monotone_lift | intros _; apply monotone_emit].
Qed.

Lemma monotone_file_picker (basename : string -> string)
    (exception_text : exn -> string) (return_full_paths : bool)
    (preferred_icon_path : option string) (root icon withdraw : exn + unit)
    (askopenfilenames : exn + list string) (destroy : exn + unit) :
  monotone
    (file_picker basename exception_text return_full_paths
       preferred_icon_path root icon withdraw askopenfilenames destroy).
Proof.
  intros w. rewrite file_picker_run.
  destruct root as [e|[]]; [apply extends_refl|].
  destruct withdraw as [e|[]]; [eexists; reflexivity|].
  destruct askopenfilenames as [e|chosen]; eexists; reflexivity.
Qed.

Lemma monotone_folder_picker (PACKAGE_DIR : string)
    (run_process : list string -> process_result)
    (json_loads : string -> exn + json)
    (error_text : list string -> Z -> string)
    (initialdir : option string) (return_full_paths : bool)
    (title : option string) (multi_folder : bool) :
  monotone
    (folder_picker PACKAGE_DIR run_process json_loads error_text initialdir
       return_full_paths title multi_folder).
Proof.
  unfold folder_picker. apply monotone_try_except.
  - apply monotone_bind.
    + unfold subprocess_run. destruct (run_process _) as [e|code out err];
        [apply monotone_raise|].
      destruct (code =? 0); [apply monotone_ret | apply monotone_raise].
    + intros [stdout stderr].
      apply monotone_bind;
        [destruct (str_truthy stderr);
         [apply monotone_emit | apply monotone_ret]
        |intros _].
      destruct (negb _); [apply monotone_ret|].
      apply monotone_bind; [apply monotone_lift | intros parsed].
      apply monotone_ret.
  - intros e h Hh.
    destruct e; try discriminate Hh; injection Hh as <-;
      (apply monotone_bind; [apply monotone_emit | intros _]);
      apply monotone_ret.
Qed.

(** Running a program whose first step has come back. *)
Lemma bind_return {A B : Type} (m : py A) (k : A -> py B) (a : A)
    (w w' : world) :
  m w = (Return a, w') -> (m ≫= k) w = k a w'.
Proof. intros Hm. py_unfold. now rewrite Hm. Qed.

Lemma bind_assoc {A B C : Type} (m : py A) (k : A -> py B) (h : B -> py C)
    (w : world) :
  ((m ≫= k) ≫= h) w = (m ≫= (fun a => k a ≫= h)) w.
Proof. py_unfold. now destruct (m w) as [[a|e|] w']. Qed.

End Monotone.

(** X17.  A prompt that is cancelled, or that comes back with nothing, does
    not stop the example: [main] prints "Prompt canceled: " and the message
    of the [ValueError], and opens the confirm dialog next, just as it prints
    what a prompt returned and goes on.  Anything else a prompt raises (the
    [TclError] of a fade-in that fails) is not caught and ends [main]
    there. *)
Theorem example_main_goes_on (PACKAGE_DIR : string)
    (basename : string -> string) (exception_text : exn -> string)
    (error_text : list string -> Z -> string)
    (json_loads : string -> exn + json) (repr : pyval -> string)
    (paths_repr : list string -> string) (json_repr : list json -> string)
    (run : example_run) (w : world) :
  let first :=
    prompt (Some "Enter your name:") "Alice" (prompt_fade run)
      (prompt_script run) w in
  let whole :=
    main PACKAGE_DIR basename exception_text error_text json_loads repr
      paths_repr json_repr run w in
  (forall text,
      fst first = Raise (ValueError text) ->
      exists effects,
        trace (snd whole)
        = trace (snd first)
          ++ Printed ("Prompt canceled: " +:+ text)
          :: WindowCreated "Confirm" :: effects)
  /\ (forall name,
         fst first = Return name ->
         exists effects,
           trace (snd whole)
           = trace (snd first)
             ++ Printed ("Prompt returned: " +:+ py_str repr name)
             :: WindowCreated "Confirm" :: effects)
  /\ (forall e,
         fst first = Raise e -> is_value_error e = false ->
         whole = (Raise e, snd first)).
Proof.
  intros first whole.
  assert (Hgoes : forall (line : string) (w1 : world),
    (try_except
       (name ← prompt (Some "Enter your name:") "Alice" (prompt_fade run)
                 (prompt_script run);
        emit (Printed ("Prompt returned: " +:+ py_str repr name)))
       (fun error =>
          if is_value_error error
          then Some (emit (Printed ("Prompt canceled: "
                                    +:+ error_message exception_text error)))
          else None)) w
    = (Return tt, World (next_object w1) (trace w1 ++ [Printed line])) ->
    exists effects,
      trace (snd whole)
      = trace w1 ++ Printed line :: WindowCreated "Confirm" :: effects).
  { intros line w1 Hfirst. subst whole. unfold main.
    rewrite (bind_return _ _ _ _ _ Hfirst).
    unfold confirm, _base_input_dialog.
    cbn [opt_truthy str_truthy negb str_or].
    rewrite bind_assoc.
    rewrite (bind_return fresh_object _ _ _ _ eq_refl).
    rewrite bind_assoc.
    rewrite (bind_return (emit (WindowCreated "Confirm")) _ _ _ _ eq_refl).
    cbn [next_object trace].
    match goal with
    | |- context [snd (?rest ?w2)] =>
        assert (Hrest : monotone rest)
    end.
    { unfold _safe_finish, input_outcome.
      apply monotone_bind; [|intros confirmed].
      { apply monotone_bind; [apply monotone_emit | intros _].
        apply monotone_bind; [apply monotone_ret | intros _].
        apply monotone_bind; [apply monotone_wait | intros st].
        apply monotone_bind; [apply monotone_emit | intros _].
        destruct (is_object _ _); apply monotone_ret. }
      apply monotone_bind; [apply monotone_emit | intros _].
      apply monotone_bind; [apply monotone_alert | intros _].
      apply monotone_bind; [apply monotone_file_picker | intros files].
      apply monotone_bind; [apply monotone_emit | intros _].
      apply monotone_bind; [apply monotone_folder_picker | intros folders].
      apply monotone_emit. }
    destruct (Hrest (World (S (next_object w1))
                       ((trace w1 ++ [Printed line])
                        ++ [WindowCreated "Confirm"])))
      as [effects Heffects].
    exists effects. rewrite Heffects. cbn [trace].
    now rewrite <- !app_assoc. }
  split; [|split].
  - intros text Hraise. subst first.
    destruct (prompt _ _ _ _ w) as [out w1] eqn:Hprompt.
    cbn [fst snd] in *. subst out.
    apply Hgoes. unfold try_except. py_unfold. rewrite Hprompt. reflexivity.
  - intros name Hreturn. subst first.
    destruct (prompt _ _ _ _ w) as [out w1] eqn:Hprompt.
    cbn [fst snd] in *. subst out.
    apply Hgoes. unfold try_except. py_unfold. rewrite Hprompt. reflexivity.
  - intros e Hraise Htext. subst first whole.
    destruct (prompt _ _ _ _ w) as [out w1] eqn:Hprompt.
    cbn [fst snd] in *. subst out.
    unfold main, try_except. py_unfold. rewrite Hprompt, Htext. reflexivity.
Qed.

(** ** Truncation at any limit *)

Lemma length_py_slice_to (s : string) (stop : Z) :
  Z.of_nat (String.length (py_slice_to s stop))
  = if stop <? 0 then Z.max (py_len s + stop) 0 else Z.min stop (py_len s).
Proof.
  unfold py_slice_to, py_len. rewrite length_substring_prefix.
  destruct (Z.ltb_spec stop 0); lia.
Qed.

(** X18.  At any limit of three characters or more a message is never made
    longer than the limit, a message within the limit is left alone, and
    truncating twice is truncating once.  At a limit below three the cut
    message is the three dots and whatever is left of the text, which is
    always longer than the limit. *)
Theorem truncate_message_at_any_limit (message : string) (max_chars : Z) :
  (3 <= max_chars ->
   py_len (_truncate_message message max_chars) <= max_chars
   /\ _truncate_message (_truncate_message message max_chars) max_chars
      = _truncate_message message max_chars)
  /\ (py_len message <= max_chars ->
      _truncate_message message max_chars = message)
  /\ (max_chars < 3 -> max_chars < py_len message ->
      max_chars < py_len (_truncate_message message max_chars)).
Proof.
  assert (Hcut : max_chars < py_len message ->
    py_len (_truncate_message message max_chars)
    = (if max_chars - 3 <? 0 then Z.max (py_len message + (max_chars - 3)) 0
       else Z.min (max_chars - 3) (py_len message)) + 3).
  { intros Hlong. unfold _truncate_message.
    destruct (Z.leb_spec (py_len message) max_chars); [lia|].
    unfold py_len at 1. rewrite length_string_app, Nat2Z.inj_add.
    now rewrite length_py_slice_to. }
  assert (Hkeep : py_len message <= max_chars ->
                  _truncate_message message max_chars = message).
  { intros Hshort. unfold _truncate_message.
    now destruct (Z.leb_spec (py_len message) max_chars); [|lia]. }
  split; [|split; [exact Hkeep|]].
  - intros Hlimit.
    assert (Hbound : py_len (_truncate_message message max_chars) <= max_chars).
    { destruct (Z.le_gt_cases (py_len message) max_chars) as [Hshort|Hlong].
      - now rewrite Hkeep.
      - rewrite (Hcut Hlong). destruct (Z.ltb_spec (max_chars - 3) 0); lia. }
    split; [exact Hbound|].
    unfold _truncate_message at 1.
    now destruct (Z.leb_spec (py_len (_truncate_message message max_chars))
                    max_chars); [|lia].
  - intros Hlimit Hlong. rewrite (Hcut Hlong).
    destruct (Z.ltb_spec (max_chars - 3) 0); lia.
Qed.
